(** * TransformSelectForecaster

    A shallow embedding of
    [sktime/forecasting/compose/_transform_select_forecaster.py]:
    the compositor that passes a series through a series-to-primitives
    transformer, reads a category label from the result and dispatches
    fitting, updating and prediction to the forecaster registered under
    that label (or to a fallback forecaster).

    Python objects live in a store; a forecaster held in a dict or an
    attribute is a reference into it, so that [clone] allocates and a
    method call on an object updates the store in place.  Methods of the
    compositor are computations in a state-and-exception monad over the
    store and the compositor's own attributes: what was written before an
    exception is raised stays written. *)

From Stdlib Require Import String ZArith.
From stdpp Require Import base option list strings gmap fin_maps.
Local Open Scope string_scope.
Local Open Scope list_scope.

(** ** Exceptions and the monad of methods *)

Inductive exn : Type :=
| ValueError (msg : string)
| AssertionError
| AttributeError (name : string)
| KeyError (key : string)
| IndexError
| TypeError (msg : string)
| NotImplementedError (what : string)
| NotFittedError
| ReferenceError
| Raised (what : string).
(* [NotImplementedError] is what the framework raises for an operation the
   estimator does not support; [Raised] stands for any other exception of
   a collaborator. *)

(** [E A]: a pure computation that returns or raises. *)
Definition E (A : Type) : Type := exn + A.

Definition bindE {A B} (m : E A) (k : A -> E B) : E B :=
  match m with
  | inl e => inl e
  | inr a => k a
  end.

(** [M St A]: a method over mutable state [St]; the state reached is
    returned on both exits. *)
Definition M (St A : Type) : Type := St -> St * E A.

Definition ret {St A} (a : A) : M St A := fun s => (s, inr a).
Definition raise {St A} (e : exn) : M St A := fun s => (s, inl e).
Definition lift {St A} (r : E A) : M St A := fun s => (s, r).
Definition get {St} : M St St := fun s => (s, inr s).
Definition modify {St} (f : St -> St) : M St unit := fun s => (f s, inr tt).
Definition bind {St A B} (m : M St A) (k : A -> M St B) : M St B :=
  fun s =>
    match m s with
    | (s', inr a) => k a s'
    | (s', inl e) => (s', inl e)
    end.

(** Reading the outcome of a run: whether it returned, and what. *)
Definition returned {St A} (r : St * E A) : bool :=
  match r.2 with
  | inr _ => true
  | inl _ => false
  end.

Definition value_or {A} (d : A) (r : E A) : A :=
  match r with
  | inr a => a
  | inl _ => d
  end.

Notation "'let!' x ':=' m 'in' k" := (bind m (fun x => k))
  (at level 10, x pattern, m at level 100, k at level 200, only parsing).
Notation "'let?' x ':=' m 'in' k" := (bindE m (fun x => k))
  (at level 10, x pattern, m at level 100, k at level 200, only parsing).

(** ** Tags *)

(** A tag value is an arbitrary Python value; the class's own [_tags]
    holds booleans, [None], strings and lists of strings. *)
Inductive tagval : Type :=
| TBool (b : bool)
| TNone
| TStr (s : string)
| TList (l : list string).

Global Instance tagval_eq_dec : EqDecision tagval.
Proof. solve_decision. Defined.

(** [v is False] *)
Definition is_False (v : tagval) : bool :=
  match v with
  | TBool false => true
  | _ => false
  end.

(** Truth value of [v] in an [if]. *)
Definition truthy (v : tagval) : bool :=
  match v with
  | TBool b => b
  | TNone => false
  | TStr s => negb (String.eqb s "")
  | TList l => negb (bool_decide (l = []))
  end.

(** ** Collaborators

    The forecasters, the transformer and the estimator framework are
    external to the module.  A forecaster class is given by its
    hyper-parameters [Params] and what its methods compute from them;
    [Fitted] is what [fit] and [update] leave in the object. *)

Class Collaborators : Type := {
  Series : Type;
  Horizon : Type;
  Coverage : Type;
  Pred : Type;
  PredInt : Type;
  PredVar : Type;
  PredDist : Type;
  Params : Type;
  Fitted : Type;
  get_tags : Params -> gmap string tagval;
  fit : Params -> Series -> option Series -> option Horizon -> E Fitted;
  update : Params -> Fitted -> Series -> option Series -> bool -> E Fitted;
  predict : Params -> Fitted -> option Horizon -> option Series -> E Pred;
  predict_interval :
    Params -> Fitted -> option Horizon -> option Series -> Coverage -> E PredInt;
  predict_var :
    Params -> Fitted -> option Horizon -> option Series -> bool -> E PredVar;
  predict_proba :
    Params -> Fitted -> option Horizon -> option Series -> bool -> E PredDist;
  Estimator : Type;
  Transformer : Type;
  ADICVTransformer : list string -> Estimator;
  coerce_scitype : Estimator -> string -> E Transformer;
  transformer_clone : Transformer -> Transformer;
  fit_transform :
    Transformer -> Series -> option Series -> E (Transformer * list (list string));
  BaseForecaster_tags : gmap string tagval
}.

Section Compositor.
Context {C : Collaborators}.

(** ** Objects and the store *)

Record forecaster : Type := {
  params : Params;
  fitted : option Fitted
}.

(** A value found in the [forecasters] dict or passed as
    [fallback_forecaster]: [None], a reference to a forecaster, or an
    object of some other class.  Such an object is taken to have none of
    the methods [clone] and [get_tags], as a string has not. *)
Inductive pyobj : Type :=
| PyNone
| PyForecaster (ref : nat)
| PyOther (repr : string).

Definition is_None (v : pyobj) : bool :=
  match v with
  | PyNone => true
  | _ => false
  end.

(** [isinstance(v, BaseForecaster)] *)
Definition isinstance_BaseForecaster (v : pyobj) : bool :=
  match v with
  | PyForecaster _ => true
  | _ => false
  end.

(** Reading a reference.  A reference outside the store does not arise in
    Python; [ReferenceError] only makes the read total. *)
Definition deref (h : list forecaster) (r : nat) : E forecaster :=
  match h !! r with
  | Some o => inr o
  | None => inl ReferenceError
  end.

Definition the_forecaster (h : list forecaster) (v : pyobj) (meth : string)
  : E forecaster :=
  match v with
  | PyForecaster r => deref h r
  | _ => inl (AttributeError meth)
  end.

(** Modelled from the spec: [clone()] of the estimator framework, which is
    not part of the module: "Cloning guarantees ActiveModel starts from an
    unfitted prototype state"; the copy has the prototype's
    hyper-parameters and is a new object. *)
Definition clone (o : forecaster) : forecaster :=
  {| params := params o; fitted := None |}.

Definition alloc (o : forecaster) : M (list forecaster) nat :=
  fun h => (h ++ [o], inr (length h)).

(** [v.clone()] *)
Definition py_clone (v : pyobj) : M (list forecaster) nat :=
  let! h := get in
  let! o := lift (the_forecaster h v "clone") in
  alloc (clone o).

(** [v.get_tags()] *)
Definition py_get_tags (h : list forecaster) (v : pyobj)
  : E (gmap string tagval) :=
  let? o := the_forecaster h v "get_tags" in
  inr (get_tags (params o)).

(** ** The compositor's attributes *)

Record TransformSelectForecaster : Type := {
  transformer : Estimator;
  forecasters : gmap string pyobj;
  fallback_forecaster : pyobj;
  transformer_ : Transformer;
  forecasters_ : gmap string nat;
  tags : gmap string tagval;
  _predict_interval_attached : bool;
  _predict_var_attached : bool;
  _predict_proba_attached : bool;
  category_ : option string;
  chosen_forecaster_ : option nat
}.

(** ** Construction *)

(** The class attribute [_tags]. *)
Definition _tags : gmap string tagval :=
  list_to_map
    [ ("y_inner_mtype", TStr "pd.DataFrame");
      ("X_inner_mtype", TStr "pd.DataFrame");
      ("scitype:y", TStr "both");
      ("ignores-exogeneous-X", TBool false);
      ("requires-fh-in-fit", TBool false);
      ("enforce_index_type", TNone);
      ("authors", TList ["shlok191"]);
      ("maintainers", TList ["shlok191"]);
      ("python_version", TNone) ].

(** Modelled from the spec: [set_tags] of the estimator framework, called
    with the dict [new] as keyword arguments,
    which is not part of the module; it has "no side effects beyond
    populating the composite's own declared-capability set": the entries
    of [new] replace those of the same name. *)
Definition set_tags (new old : gmap string tagval) : gmap string tagval :=
  new ∪ old.

(** [for forecaster in forecasters.values():
       assert isinstance(forecaster, BaseForecaster)] *)
Fixpoint assert_forecasters (vals : list pyobj) : E unit :=
  match vals with
  | [] => inr tt
  | v :: rest =>
      if isinstance_BaseForecaster v then assert_forecasters rest
      else inl AssertionError
  end.

(** [{k: f.clone() for k, f in forecasters.items()}] *)
Fixpoint clone_items (items : list (string * pyobj))
  : M (list forecaster) (list (string * nat)) :=
  match items with
  | [] => ret []
  | (k, f) :: rest =>
      let! r := py_clone f in
      let! rs := clone_items rest in
      ret ((k, r) :: rs)
  end.

(** The dict literal [true_if_all_tags]. *)
Definition true_if_all_literal : list (string * tagval) :=
  [ ("ignores-exogeneous-X", TBool true);
    ("X-y-must-have-same-index", TBool true);
    ("enforce_index_type", TBool true);
    ("handles-missing-data", TBool true);
    ("capability:insample", TBool true);
    ("capability:pred_int", TBool true);
    ("capability:pred_int:insample", TBool true) ].

(** The dict literal [true_if_any_tags]. *)
Definition true_if_any_literal : list (string * tagval) :=
  [ ("requires-fh-in-fit", TBool true);
    ("X-y-must-have-same-index", TBool true) ].

(** [tag not in forecaster_tags or forecaster_tags[tag] is False] *)
Definition fails_tag (tag : string) (forecaster_tags : gmap string tagval)
  : bool :=
  match forecaster_tags !! tag with
  | None => true
  | Some v => is_False v
  end.

(** The inner loop over [self.forecasters.values()], with its [break]. *)
Fixpoint true_for_all_loop (h : list forecaster) (tag : string)
    (vals : list pyobj) : E bool :=
  match vals with
  | [] => inr true
  | f :: rest =>
      let? forecaster_tags := py_get_tags h f in
      if fails_tag tag forecaster_tags then inr false
      else true_for_all_loop h tag rest
  end.

(** One round of the outer loop: the value stored under [tag]. *)
Definition true_for_all (h : list forecaster) (tag : string)
    (fs : gmap string pyobj) (fallback : pyobj) : E bool :=
  let? t := true_for_all_loop h tag (map_to_list fs).*2 in
  if is_None fallback then inr t
  else
    let? fallback_tags := py_get_tags h fallback in
    inr (if fails_tag tag fallback_tags then false else t).

(** [for tag in true_if_all_tags.keys(): ... true_if_all_tags[tag] = ...] *)
Fixpoint true_if_all_loop (h : list forecaster) (fs : gmap string pyobj)
    (fallback : pyobj) (names : list string) (d : gmap string tagval)
  : E (gmap string tagval) :=
  match names with
  | [] => inr d
  | tag :: rest =>
      let? b := true_for_all h tag fs fallback in
      true_if_all_loop h fs fallback rest (<[tag := TBool b]> d)
  end.

Definition true_if_all_tags (h : list forecaster) (fs : gmap string pyobj)
    (fallback : pyobj) : E (gmap string tagval) :=
  true_if_all_loop h fs fallback true_if_all_literal.*1
    (list_to_map true_if_all_literal).

(** Modelled from the spec: [_anytagis] of [_HeterogenousMetaEstimator],
    which is not part of the module: whether the tag has the given value
    for any of the listed estimators ("true if true for any candidate or
    the fallback"). *)
Fixpoint _anytagis (h : list forecaster) (tag_name : string) (value : tagval)
    (estimators : list (string * pyobj)) : E bool :=
  match estimators with
  | [] => inr false
  | (_, est) :: rest =>
      let? est_tags := py_get_tags h est in
      let? b := _anytagis h tag_name value rest in
      inr (bool_decide (est_tags !! tag_name = Some value) || b)
  end.

(** Modelled from the spec: [_anytagis_then_set] of
    [_HeterogenousMetaEstimator], which is not part of the module: the
    tag is set to [value] when [_anytagis] holds and to [value_if_not]
    otherwise. *)
Definition _anytagis_then_set (h : list forecaster) (tag_name : string)
    (value value_if_not : tagval) (estimators : list (string * pyobj))
    (self_tags : gmap string tagval) : E (gmap string tagval) :=
  let? b := _anytagis h tag_name value estimators in
  inr (set_tags {[ tag_name := if b then value else value_if_not ]} self_tags).

(** [for tag in true_if_any_tags:
       self._anytagis_then_set(tag, True, False, forecasters)] *)
Fixpoint true_if_any_loop (h : list forecaster)
    (estimators : list (string * pyobj)) (names : list string)
    (self_tags : gmap string tagval) : E (gmap string tagval) :=
  match names with
  | [] => inr self_tags
  | tag :: rest =>
      let? self_tags' :=
        _anytagis_then_set h tag (TBool true) (TBool false) estimators self_tags in
      true_if_any_loop h estimators rest self_tags'
  end.

(** [self.get_tags()[tag]] *)
Definition tag_item (self_tags : gmap string tagval) (tag : string) : E tagval :=
  match self_tags !! tag with
  | Some v => inr v
  | None => inl (KeyError tag)
  end.

(** [self.transformer] once [__init__] has replaced [None] by the
    default, [ADICVTransformer(features=["class"])]. *)
Definition transformer_or_default (transformer0 : option Estimator)
  : Estimator :=
  match transformer0 with
  | Some t => t
  | None => ADICVTransformer ["class"]
  end.

(** [forecasters = list(self.forecasters.items())], with
    [("", self.fallback_forecaster)] appended when there is a fallback. *)
Definition any_estimators (fs : gmap string pyobj) (fallback : pyobj)
  : list (string * pyobj) :=
  map_to_list fs ++ (if is_None fallback then [] else [("", fallback)]).

Definition __init__ (forecasters0 : gmap string pyobj)
    (transformer0 : option Estimator) (fallback_forecaster0 : pyobj)
  : M (list forecaster) TransformSelectForecaster :=
  let self_transformer := transformer_or_default transformer0 in
  let! coerced := lift (coerce_scitype self_transformer "transformer") in
  let self_transformer_ := transformer_clone coerced in
  let! _ := lift (assert_forecasters (map_to_list forecasters0).*2) in
  let! clones := clone_items (map_to_list forecasters0) in
  let self_forecasters_ : gmap string nat := list_to_map clones in
  let! h := get in
  let! all_tags := lift (true_if_all_tags h forecasters0 fallback_forecaster0) in
  let estimators := any_estimators forecasters0 fallback_forecaster0 in
  let! tags1 :=
    lift (true_if_any_loop h estimators true_if_any_literal.*1
            (_tags ∪ BaseForecaster_tags)) in
  let tags2 := set_tags all_tags tags1 in
  let! pred_int := lift (tag_item tags2 "capability:pred_int") in
  let attached := truthy pred_int in
  ret {| transformer := self_transformer;
         forecasters := forecasters0;
         fallback_forecaster := fallback_forecaster0;
         transformer_ := self_transformer_;
         forecasters_ := self_forecasters_;
         tags := tags2;
         _predict_interval_attached := attached;
         _predict_var_attached := attached;
         _predict_proba_attached := attached;
         category_ := None;
         chosen_forecaster_ := None |}.

(** ** Methods

    A method runs on the store together with the compositor's
    attributes. *)

Definition World : Type := list forecaster * TransformSelectForecaster.

Definition get_self : M World TransformSelectForecaster :=
  fun w => (w, inr w.2).

Definition set_attr (f : TransformSelectForecaster -> TransformSelectForecaster)
  : M World unit :=
  fun w => ((w.1, f w.2), inr tt).

Definition on_store {A} (m : M (list forecaster) A) : M World A :=
  fun w => let (h', r) := m w.1 in ((h', w.2), r).

Definition set_transformer_ (t : Transformer) (s : TransformSelectForecaster)
  : TransformSelectForecaster :=
  {| transformer := transformer s;
     forecasters := forecasters s;
     fallback_forecaster := fallback_forecaster s;
     transformer_ := t;
     forecasters_ := forecasters_ s;
     tags := tags s;
     _predict_interval_attached := _predict_interval_attached s;
     _predict_var_attached := _predict_var_attached s;
     _predict_proba_attached := _predict_proba_attached s;
     category_ := category_ s;
     chosen_forecaster_ := chosen_forecaster_ s |}.

Definition set_category_ (c : string) (s : TransformSelectForecaster)
  : TransformSelectForecaster :=
  {| transformer := transformer s;
     forecasters := forecasters s;
     fallback_forecaster := fallback_forecaster s;
     transformer_ := transformer_ s;
     forecasters_ := forecasters_ s;
     tags := tags s;
     _predict_interval_attached := _predict_interval_attached s;
     _predict_var_attached := _predict_var_attached s;
     _predict_proba_attached := _predict_proba_attached s;
     category_ := Some c;
     chosen_forecaster_ := chosen_forecaster_ s |}.

Definition set_chosen_forecaster_ (r : nat) (s : TransformSelectForecaster)
  : TransformSelectForecaster :=
  {| transformer := transformer s;
     forecasters := forecasters s;
     fallback_forecaster := fallback_forecaster s;
     transformer_ := transformer_ s;
     forecasters_ := forecasters_ s;
     tags := tags s;
     _predict_interval_attached := _predict_interval_attached s;
     _predict_var_attached := _predict_var_attached s;
     _predict_proba_attached := _predict_proba_attached s;
     category_ := category_ s;
     chosen_forecaster_ := Some r |}.

Definition set_forecasters (d : gmap string pyobj)
    (s : TransformSelectForecaster) : TransformSelectForecaster :=
  {| transformer := transformer s;
     forecasters := d;
     fallback_forecaster := fallback_forecaster s;
     transformer_ := transformer_ s;
     forecasters_ := forecasters_ s;
     tags := tags s;
     _predict_interval_attached := _predict_interval_attached s;
     _predict_var_attached := _predict_var_attached s;
     _predict_proba_attached := _predict_proba_attached s;
     category_ := category_ s;
     chosen_forecaster_ := chosen_forecaster_ s |}.

Definition set_fallback_forecaster (v : pyobj)
    (s : TransformSelectForecaster) : TransformSelectForecaster :=
  {| transformer := transformer s;
     forecasters := forecasters s;
     fallback_forecaster := v;
     transformer_ := transformer_ s;
     forecasters_ := forecasters_ s;
     tags := tags s;
     _predict_interval_attached := _predict_interval_attached s;
     _predict_var_attached := _predict_var_attached s;
     _predict_proba_attached := _predict_proba_attached s;
     category_ := category_ s;
     chosen_forecaster_ := chosen_forecaster_ s |}.

(** Reading [self.category_] and [self.chosen_forecaster_]: an attribute
    that was never assigned raises [AttributeError]. *)
Definition get_category_ : M World string :=
  let! self := get_self in
  match category_ self with
  | Some c => ret c
  | None => raise (AttributeError "category_")
  end.

Definition get_chosen_forecaster_ : M World nat :=
  let! self := get_self in
  match chosen_forecaster_ self with
  | Some r => ret r
  | None => raise (AttributeError "chosen_forecaster_")
  end.

(** [d[key]] *)
Definition dict_item {V} (d : gmap string V) (key : string) : E V :=
  match d !! key with
  | Some v => inr v
  | None => inl (KeyError key)
  end.

(** [df.iloc[0, 0]] of a table given by its rows. *)
Definition iloc_0_0 (df : list (list string)) : E string :=
  match df with
  | (c :: _) :: _ => inr c
  | _ => inl IndexError
  end.

(** [self.transformer_.fit_transform(X=y, y=X)]: the transformer object is
    fitted in place and the table returned. *)
Definition transformer__fit_transform (y : Series) (X : option Series)
  : M World (list (list string)) :=
  let! self := get_self in
  let! out := lift (fit_transform (transformer_ self) y X) in
  let! _ := set_attr (set_transformer_ out.1) in
  ret out.2.

(** Methods of the forecaster behind a reference. *)
Definition forecaster_fit (r : nat) (y : Series) (X : option Series)
    (fh : option Horizon) : M (list forecaster) unit :=
  let! h := get in
  let! o := lift (deref h r) in
  let! st := lift (fit (params o) y X fh) in
  modify (fun h => <[r := {| params := params o; fitted := Some st |}]> h).

Definition forecaster_update (r : nat) (y : Series) (X : option Series)
    (update_params : bool) : M (list forecaster) unit :=
  let! h := get in
  let! o := lift (deref h r) in
  match fitted o with
  | None => raise NotFittedError
  | Some st =>
      let! st' := lift (update (params o) st y X update_params) in
      modify (fun h => <[r := {| params := params o; fitted := Some st' |}]> h)
  end.

Definition forecaster_query {A}
    (meth : Params -> Fitted -> E A) (r : nat) : M (list forecaster) A :=
  let! h := get in
  let! o := lift (deref h r) in
  match fitted o with
  | None => raise NotFittedError
  | Some st => lift (meth (params o) st)
  end.

Definition missing_forecaster_message (category : string) : string :=
  "Forecaster not provided for given"
  +:+ ("time series of type " +:+ category)
  +:+ "and no fallback forecaster provided to use for this case.".

Definition _fit (y : Series) (X : option Series) (fh : option Horizon)
  : M World unit :=
  let! df := transformer__fit_transform y X in
  let! c := lift (iloc_0_0 df) in
  let! _ := set_attr (set_category_ c) in
  let! self := get_self in
  let! category := get_category_ in
  let! _ :=
    if negb (bool_decide (is_Some (forecasters self !! category))) then
      if is_None (fallback_forecaster self) then
        raise (ValueError (missing_forecaster_message category))
      else
        let! r := on_store (py_clone (fallback_forecaster self)) in
        set_attr (set_chosen_forecaster_ r)
    else
      let! proto := lift (dict_item (forecasters_ self) category) in
      let! r := on_store (py_clone (PyForecaster proto)) in
      set_attr (set_chosen_forecaster_ r) in
  let! chosen := get_chosen_forecaster_ in
  on_store (forecaster_fit chosen y X fh).

Definition _predict (fh : option Horizon) (X : option Series) : M World Pred :=
  let! chosen := get_chosen_forecaster_ in
  on_store (forecaster_query (fun p st => predict p st fh X) chosen).

Definition _update (y : Series) (X : option Series) (update_params : bool)
  : M World unit :=
  let! chosen := get_chosen_forecaster_ in
  on_store (forecaster_update chosen y X update_params).

(** The property [_forecasters] and its setter. *)
Definition _forecasters (self : TransformSelectForecaster)
  : list (string * pyobj) :=
  map_to_list (forecasters self)
    ++ [("fallback_forecaster", fallback_forecaster self)].

Fixpoint _forecasters_setter (new_forecasters : list (string * pyobj))
    (self : TransformSelectForecaster) : TransformSelectForecaster :=
  match new_forecasters with
  | [] => self
  | (category, f) :: rest =>
      _forecasters_setter rest
        (if negb (String.eqb category "fallback_forecaster") then
           set_forecasters (<[category := f]> (forecasters self)) self
         else set_fallback_forecaster f self)
  end.

(** The module-level functions attached by [__init__]. *)
Definition _predict_interval (fh : option Horizon) (X : option Series)
    (coverage : Coverage) : M World PredInt :=
  let! chosen := get_chosen_forecaster_ in
  on_store
    (forecaster_query (fun p st => predict_interval p st fh X coverage) chosen).

Definition _predict_var (fh : option Horizon) (X : option Series) (cov : bool)
  : M World PredVar :=
  let! chosen := get_chosen_forecaster_ in
  on_store (forecaster_query (fun p st => predict_var p st fh X cov) chosen).

Definition _predict_proba (fh : option Horizon) (X : option Series)
    (marginal : bool) : M World PredDist :=
  let! chosen := get_chosen_forecaster_ in
  on_store
    (forecaster_query (fun p st => predict_proba p st fh X marginal) chosen).

(** What [__init__] stores with [self._predict_interval =
    _predict_interval] is a plain function in an attribute of the
    instance.  Python binds the functions it finds on the class, not
    those it finds on the instance: the call
    [self._predict_interval(fh=fh, X=X, coverage=coverage)] reaches the
    function [f] with no argument for its first parameter and raises
    [TypeError] before the body of [f] runs. *)
Definition missing_self : exn :=
  TypeError "missing 1 required positional argument: 'self'".

Definition call_unbound {A} (f : M World A) : M World A :=
  raise missing_self.

(** Modelled from the spec: the public entry points [predict_interval],
    [predict_var] and [predict_proba] of the estimator framework, which
    are not part of the module: "valid only in Fitted AND only if composite
    capability supports prediction intervals is true; otherwise fails as
    UnsupportedOperation", with "a capability check performed at the start
    of each probabilistic-prediction entry point"; a call that passes goes
    to the attribute of that name, which is the function [__init__] has
    stored in the instance when there is one, and the method of the base
    class otherwise. *)
Definition UnsupportedOperation : exn :=
  NotImplementedError "capability:pred_int".

Definition probabilistic_entry {A} (attached : bool) (impl : M World A)
  : M World A :=
  let! self := get_self in
  let! flag := lift (tag_item (tags self) "capability:pred_int") in
  if negb (truthy flag) then raise UnsupportedOperation
  else
    match chosen_forecaster_ self with
    | None => raise NotFittedError
    | Some _ =>
        if attached then call_unbound impl else raise UnsupportedOperation
    end.

Definition public_predict_interval (fh : option Horizon) (X : option Series)
    (coverage : Coverage) : M World PredInt :=
  let! self := get_self in
  probabilistic_entry (_predict_interval_attached self)
    (_predict_interval fh X coverage).

Definition public_predict_var (fh : option Horizon) (X : option Series)
    (cov : bool) : M World PredVar :=
  let! self := get_self in
  probabilistic_entry (_predict_var_attached self) (_predict_var fh X cov).

Definition public_predict_proba (fh : option Horizon) (X : option Series)
    (marginal : bool) : M World PredDist :=
  let! self := get_self in
  probabilistic_entry (_predict_proba_attached self)
    (_predict_proba fh X marginal).

(** ** Reachable states

    A compositor comes out of [__init__]; afterwards [_fit] and [_update]
    run on it, whether they return or raise, and other code may run in
    between: it may create objects and fit or update existing ones, which
    keeps their hyper-parameters. *)

Definition store_le (h h' : list forecaster) : Prop :=
  forall r o, h !! r = Some o -> exists o', h' !! r = Some o' /\ params o' = params o.

Inductive reachable : World -> Prop :=
| reach_init fs t fb h h' s :
    __init__ fs t fb h = (h', inr s) -> reachable (h', s)
| reach_fit w y X fh :
    reachable w -> reachable (_fit y X fh w).1
| reach_update w y X update_params :
    reachable w -> reachable (_update y X update_params w).1
| reach_other h h' s :
    reachable (h, s) -> store_le h h' -> reachable (h', s).

(** The forecaster that serves a label: the one registered under it, and
    the fallback for a label that is not a key. *)
Definition registered_for (s : TransformSelectForecaster) (label : string)
  : pyobj :=
  match forecasters s !! label with
  | Some v => v
  | None => fallback_forecaster s
  end.

(** What [__init__] establishes between the prototypes and the copies it
    keeps in [forecasters_]. *)
Definition is_forecaster (h : list forecaster) (v : pyobj) : Prop :=
  exists p o, v = PyForecaster p /\ h !! p = Some o.

Definition consistent (w : World) : Prop :=
  (forall k v, forecasters w.2 !! k = Some v ->
     exists p o r o',
       v = PyForecaster p /\ w.1 !! p = Some o /\
       forecasters_ w.2 !! k = Some r /\ w.1 !! r = Some o' /\
       params o' = params o)
  /\ (fallback_forecaster w.2 = PyNone \/ is_forecaster w.1 (fallback_forecaster w.2)).

(** An entry of [forecasters_] is the copy of an entry of [forecasters]. *)
Definition copy_of (h : list forecaster) (kv : string * pyobj)
    (kr : string * nat) : Prop :=
  kv.1 = kr.1 /\
  exists p o, kv.2 = PyForecaster p /\ h !! p = Some o /\
              h !! kr.2 = Some (clone o).

(** The forecaster [v] has the tag, with a value other than [False]. *)
Definition keeps_tag (h : list forecaster) (tag : string) (v : pyobj) : Prop :=
  exists p o x,
    v = PyForecaster p /\ h !! p = Some o /\
    get_tags (params o) !! tag = Some x /\ x <> TBool false.

(** The forecaster [v] has the tag with exactly the value [value]. *)
Definition has_tag (h : list forecaster) (tag : string) (value : tagval)
    (v : pyobj) : Prop :=
  exists p o,
    v = PyForecaster p /\ h !! p = Some o /\
    get_tags (params o) !! tag = Some value.

(** The value the setter of [_forecasters] leaves for [key]: that of the
    last entry of [new_forecasters] with this key, if there is one. *)
Fixpoint last_assigned (key : string) (new_forecasters : list (string * pyobj))
    (old : option pyobj) : option pyobj :=
  match new_forecasters with
  | [] => old
  | (category, f) :: rest =>
      last_assigned key rest (if String.eqb category key then Some f else old)
  end.

(** Every value the forecaster [v] may have for [tag] is a boolean. *)
Definition boolean_tag (h : list forecaster) (tag : string) (v : pyobj) : Prop :=
  forall p o x,
    v = PyForecaster p -> h !! p = Some o ->
    get_tags (params o) !! tag = Some x -> exists b, x = TBool b.

(** A method on the store that only creates objects or changes what is
    fitted in them. *)
Definition grows {A} (m : M (list forecaster) A) : Prop :=
  forall h, store_le h (m h).1.

(** What is set at construction: the prototypes and their copies, the
    tags and the attached implementations. *)
Definition configuration (s : TransformSelectForecaster) :=
  (forecasters s, forecasters_ s, fallback_forecaster s, tags s,
   (_predict_interval_attached s, _predict_var_attached s,
    _predict_proba_attached s)).

(** A method of the compositor that, besides, leaves the configuration
    alone. *)
Definition frame (w w' : World) : Prop :=
  store_le w.1 w'.1 /\ configuration w'.2 = configuration w.2.

(** The tag [capability:pred_int] is a boolean, and the three
    implementations are attached exactly when it is [True]. *)
Definition pred_int_wired (s : TransformSelectForecaster) (b : bool) : Prop :=
  tags s !! "capability:pred_int" = Some (TBool b) /\
  _predict_interval_attached s = b /\
  _predict_var_attached s = b /\
  _predict_proba_attached s = b.

Definition preserves {A} (m : M World A) : Prop :=
  forall w, frame w (m w).1.

(** The references the configuration holds: the prototypes in
    [forecasters], their copies in [forecasters_] and the fallback. *)
Definition configured (s : TransformSelectForecaster) (r : nat) : Prop :=
  (exists k, forecasters s !! k = Some (PyForecaster r)) \/
  (exists k, forecasters_ s !! k = Some r) \/
  fallback_forecaster s = PyForecaster r.

(** The configuration points into the store, and the chosen forecaster,
    once there is one, is an object of the store that the configuration
    does not hold. *)
Definition owns_chosen (w : World) : Prop :=
  (forall r, configured w.2 r -> r < length w.1) /\
  (forall c, chosen_forecaster_ w.2 = Some c ->
     c < length w.1 /\ ~ configured w.2 c).

End Compositor.

(** ** A small universe of collaborators

    Forecasters that remember the series they were fitted on and forecast
    its last value, and a transformer that calls a series with a zero in
    it intermittent and any other series smooth.  They serve to run the
    compositor on concrete inputs. *)

Module Toy.

Record toy_params : Type := {
  class_name : string;
  class_tags : list (string * tagval)
}.

Record toy_transformer : Type := {
  features : list string;
  seen : option (list Z)
}.

Definition toy_fit (p : toy_params) (y : list Z) (X : option (list Z))
    (fh : option (list nat)) : E (list Z) :=
  match y with
  | [] => inl (ValueError "empty series")
  | _ => inr y
  end.

Definition toy_update (p : toy_params) (st y : list Z) (X : option (list Z))
    (update_params : bool) : E (list Z) :=
  inr (if update_params then st ++ y else st).

Definition toy_predict (p : toy_params) (st : list Z) (fh : option (list nat))
    (X : option (list Z)) : E (list Z) :=
  match fh with
  | None => inl (ValueError "no forecasting horizon")
  | Some steps => inr ((fun _ => default 0%Z (last st)) <$> steps)
  end.

Definition toy_predict_interval (p : toy_params) (st : list Z)
    (fh : option (list nat)) (X : option (list Z)) (coverage : list Z)
  : E (list (Z * Z)) :=
  let? point := toy_predict p st fh X in
  inr (c ← coverage; (fun v => (v - c, v + c)%Z) <$> point).

Definition toy_predict_var (p : toy_params) (st : list Z)
    (fh : option (list nat)) (X : option (list Z)) (cov : bool) : E (list Z) :=
  let? point := toy_predict p st fh X in
  inr ((fun _ => 0%Z) <$> point).

Definition toy_classify (y : list Z) : string :=
  if existsb (Z.eqb 0) y then "intermittent" else "smooth".

Definition toy_fit_transform (t : toy_transformer) (y : list Z)
    (X : option (list Z)) : E (toy_transformer * list (list string)) :=
  let t' := {| features := features t; seen := Some y |} in
  match y with
  | [] => inr (t', [])
  | _ => inr (t', [[toy_classify y]])
  end.

Definition toy : Collaborators :=
  {| Series := list Z;
     Horizon := list nat;
     Coverage := list Z;
     Pred := list Z;
     PredInt := list (Z * Z);
     PredVar := list Z;
     PredDist := list (Z * Z);
     Params := toy_params;
     Fitted := list Z;
     get_tags := fun p => list_to_map (class_tags p);
     fit := toy_fit;
     update := toy_update;
     predict := toy_predict;
     predict_interval := toy_predict_interval;
     predict_var := toy_predict_var;
     predict_proba :=
       fun p st fh X marginal => toy_predict_interval p st fh X [1%Z];
     Estimator := toy_transformer;
     Transformer := toy_transformer;
     ADICVTransformer := fun fs => {| features := fs; seen := None |};
     coerce_scitype := fun e _ => inr e;
     transformer_clone := fun t => {| features := features t; seen := None |};
     fit_transform := toy_fit_transform;
     BaseForecaster_tags := ∅ |}.

(** Three forecaster classes.  [naive] supports everything and, like
    every forecaster of the framework, leaves [enforce_index_type] at
    [None]; [croston] has no prediction intervals; [trend] needs the
    indices of [X] and [y] to agree. *)
Definition naive : toy_params :=
  {| class_name := "NaiveForecaster";
     class_tags :=
       [ ("ignores-exogeneous-X", TBool true);
         ("X-y-must-have-same-index", TBool false);
         ("enforce_index_type", TNone);
         ("handles-missing-data", TBool true);
         ("capability:insample", TBool true);
         ("capability:pred_int", TBool true);
         ("capability:pred_int:insample", TBool true);
         ("requires-fh-in-fit", TBool false) ] |}.

Definition croston : toy_params :=
  {| class_name := "Croston";
     class_tags :=
       [ ("ignores-exogeneous-X", TBool true);
         ("X-y-must-have-same-index", TBool false);
         ("enforce_index_type", TNone);
         ("handles-missing-data", TBool false);
         ("capability:insample", TBool true);
         ("capability:pred_int", TBool false);
         ("capability:pred_int:insample", TBool false);
         ("requires-fh-in-fit", TBool true) ] |}.

Definition trend : toy_params :=
  {| class_name := "PolynomialTrendForecaster";
     class_tags :=
       [ ("ignores-exogeneous-X", TBool true);
         ("X-y-must-have-same-index", TBool true);
         ("enforce_index_type", TNone);
         ("handles-missing-data", TBool true);
         ("capability:insample", TBool true);
         ("capability:pred_int", TBool true);
         ("capability:pred_int:insample", TBool true);
         ("requires-fh-in-fit", TBool false) ] |}.

Definition unfitted (p : toy_params) : forecaster (C := toy) :=
  @Build_forecaster toy p None.

(** The objects the caller holds before constructing a compositor. *)
Definition store0 : list (forecaster (C := toy)) :=
  [unfitted naive; unfitted croston; unfitted trend].

Definition smooth_series : list Z := [3; 4; 5]%Z.
Definition intermittent_series : list Z := [0; 7; 0]%Z.

(** What stands for a compositor where construction raised. *)
Definition blank : TransformSelectForecaster (C := toy) :=
  @Build_TransformSelectForecaster toy
    {| features := []; seen := None |} ∅ PyNone
    {| features := []; seen := None |} ∅ ∅
    false false false None None.

(** The store and the compositor after [__init__] has run on [store0]. *)
Definition constructed (fs : gmap string pyobj) (t : option toy_transformer)
    (fb : pyobj) : World (C := toy) :=
  let r := __init__ (C := toy) fs t fb store0 in
  (r.1, value_or blank r.2).

(** The store and the compositor after [_fit] has run on [w]. *)
Definition fitted_on (y : list Z) (w : World (C := toy)) : World (C := toy) :=
  (_fit (C := toy) y None None w).1.

(** Mappings from categories to forecasters of [store0]. *)
Definition only_smooth : gmap string pyobj :=
  {[ "smooth" := PyForecaster 0 ]}.

Definition smooth_and_erratic : gmap string pyobj :=
  <[ "erratic" := PyForecaster 2 ]> {[ "smooth" := PyForecaster 0 ]}.

Definition negative_series : list Z := [2; -1; 3]%Z.

Definition with_a_string : gmap string pyobj :=
  <[ "lumpy" := PyOther "not a forecaster" ]> {[ "smooth" := PyForecaster 0 ]}.

End Toy.

(** The same universe with a transformer that refuses a series with a
    negative value. *)

Module Strict.

Definition strict_fit_transform (t : Toy.toy_transformer) (y : list Z)
    (X : option (list Z)) : E (Toy.toy_transformer * list (list string)) :=
  if existsb (fun v => (v <? 0)%Z) y then inl (ValueError "negative value")
  else Toy.toy_fit_transform t y X.

Definition strict : Collaborators :=
  {| Series := list Z;
     Horizon := list nat;
     Coverage := list Z;
     Pred := list Z;
     PredInt := list (Z * Z);
     PredVar := list Z;
     PredDist := list (Z * Z);
     Params := Toy.toy_params;
     Fitted := list Z;
     get_tags := fun p => list_to_map (Toy.class_tags p);
     fit := Toy.toy_fit;
     update := Toy.toy_update;
     predict := Toy.toy_predict;
     predict_interval := Toy.toy_predict_interval;
     predict_var := Toy.toy_predict_var;
     predict_proba :=
       fun p st fh X marginal => Toy.toy_predict_interval p st fh X [1%Z];
     Estimator := Toy.toy_transformer;
     Transformer := Toy.toy_transformer;
     ADICVTransformer := fun fs => {| Toy.features := fs; Toy.seen := None |};
     coerce_scitype := fun e _ => inr e;
     transformer_clone :=
       fun t => {| Toy.features := Toy.features t; Toy.seen := None |};
     fit_transform := strict_fit_transform;
     BaseForecaster_tags := ∅ |}.

(** A compositor with one forecaster, built on a store that holds it. *)
Definition store0 : list (forecaster (C := strict)) :=
  [@Build_forecaster strict Toy.naive None].

Definition blank : TransformSelectForecaster (C := strict) :=
  @Build_TransformSelectForecaster strict
    {| Toy.features := []; Toy.seen := None |} ∅ PyNone
    {| Toy.features := []; Toy.seen := None |} ∅ ∅
    false false false None None.

Definition constructed : World (C := strict) :=
  let r := __init__ (C := strict) Toy.only_smooth None PyNone store0 in
  (r.1, value_or blank r.2).

End Strict.

(** ** Properties *)

Section Properties.
Context {C : Collaborators}.

(** *** Running computations *)

Lemma bind_inr {St A B} (m : M St A) (k : A -> M St B) s s' b :
  bind m k s = (s', inr b) ->
  exists a s1, m s = (s1, inr a) /\ k a s1 = (s', inr b).
Proof.
  unfold bind. destruct (m s) as [s1 [e|a]]; [discriminate|]. eauto.
Qed.

Lemma bindE_inr {A B} (m : E A) (k : A -> E B) b :
  bindE m k = inr b -> exists a, m = inr a /\ k a = inr b.
Proof. destruct m as [e|a]; simpl; [discriminate|]. eauto. Qed.

Lemma returned_inr {St A} (d : A) (r : St * E A) :
  returned r = true -> r = (r.1, inr (value_or d r.2)).
Proof. destruct r as [s [e|a]]; [discriminate|done]. Qed.

Lemma returned_unit {S1 S2} (r : (S1 * S2) * E unit) :
  returned r = true -> r = ((r.1.1, r.1.2), inr tt).
Proof. destruct r as [[s1 s2] [e|[]]]; [discriminate|done]. Qed.

Lemma lift_inr {St A} (r : E A) (s s' : St) a :
  lift r s = (s', inr a) -> s' = s /\ r = inr a.
Proof. unfold lift. intros [= -> ->]. auto. Qed.

(** *** The store only grows *)

Lemma store_le_refl (h : list forecaster) : store_le h h.
Proof. intros r o Hr. eauto. Qed.

Lemma store_le_trans (h1 h2 h3 : list forecaster) :
  store_le h1 h2 -> store_le h2 h3 -> store_le h1 h3.
Proof.
  intros H12 H23 r o Hr.
  destruct (H12 r o Hr) as (o2 & Hr2 & Hp2).
  destruct (H23 r o2 Hr2) as (o3 & Hr3 & Hp3).
  exists o3. split; [done|congruence].
Qed.

Lemma store_le_app (h l : list forecaster) : store_le h (h ++ l).
Proof.
  intros r o Hr. exists o. split; [|done].
  by apply lookup_app_l_Some.
Qed.

Lemma store_le_insert (h : list forecaster) r o st :
  h !! r = Some o ->
  store_le h (<[r := {| params := params o; fitted := st |}]> h).
Proof.
  intros Hr r' o' Hr'.
  destruct (decide (r = r')) as [<-|Hne].
  - rewrite list_lookup_insert_eq by (by eapply lookup_lt_Some).
    eexists. split; [done|]. simpl. congruence.
  - rewrite list_lookup_insert_ne by done. eauto.
Qed.

(** *** The copies made at construction *)

Lemma py_clone_inr v h h' r :
  py_clone v h = (h', inr r) ->
  exists p o, v = PyForecaster p /\ h !! p = Some o /\
              h' = h ++ [clone o] /\ r = length h.
Proof.
  unfold py_clone, bind, get, lift, alloc, the_forecaster, deref.
  destruct v as [|p|repr]; try discriminate.
  destruct (h !! p) as [o|] eqn:Hp; [|discriminate].
  intros [= <- <-]. by exists p, o.
Qed.

Lemma clone_items_inr items : forall h h' rs,
  clone_items items h = (h', inr rs) ->
  Forall2 (copy_of h') items rs /\ exists l, h' = h ++ l.
Proof.
  induction items as [|[k f] rest IH]; intros h h' rs Hrun.
  - injection Hrun as <- <-. split; [constructor|]. exists []. by rewrite app_nil_r.
  - simpl in Hrun.
    apply bind_inr in Hrun as (r & h1 & Hc & Hrun).
    apply bind_inr in Hrun as (rs' & h2 & Hrest & Hrun).
    injection Hrun as <- <-.
    apply py_clone_inr in Hc as (p & o & -> & Hp & -> & ->).
    apply IH in Hrest as [Hall [l ->]].
    split.
    + constructor; [|done]. split; [done|].
      exists p, o. split_and!; [done| |].
      * rewrite <- app_assoc. by apply lookup_app_l_Some.
      * rewrite <- app_assoc. rewrite lookup_app_r by done.
        by rewrite Nat.sub_diag.
    + exists ([clone o] ++ l). by rewrite app_assoc.
Qed.

Lemma Forall2_copy_fst h items rs :
  Forall2 (copy_of h) items rs -> items.*1 = rs.*1.
Proof.
  induction 1 as [|kv kr l1 l2 [Hk _] _ IH]; [done|].
  rewrite !fmap_cons. congruence.
Qed.

Lemma Forall2_copy_elem h items rs kv :
  Forall2 (copy_of h) items rs -> kv ∈ items ->
  exists kr, kr ∈ rs /\ copy_of h kv kr.
Proof.
  induction 1 as [|kv' kr l1 l2 Hc _ IH]; intros Hin.
  - by apply elem_of_nil in Hin.
  - apply elem_of_cons in Hin as [->|Hin].
    + exists kr. split; [left|done].
    + destruct (IH Hin) as (kr' & Hin' & Hc'). exists kr'. split; [by right|done].
Qed.

(** *** Tag aggregation *)

Lemma fails_tag_false tag (ft : gmap string tagval) :
  fails_tag tag ft = false <-> exists x, ft !! tag = Some x /\ x <> TBool false.
Proof.
  unfold fails_tag. destruct (ft !! tag) as [x|]; split.
  - intros Hx. exists x. split; [done|]. intros ->. discriminate.
  - intros (x' & [= <-] & Hne). destruct x as [[]| | |]; done.
  - discriminate.
  - intros (x & Hx & _). discriminate.
Qed.

Lemma py_get_tags_inr h v ft :
  py_get_tags h v = inr ft ->
  exists p o, v = PyForecaster p /\ h !! p = Some o /\ ft = get_tags (params o).
Proof.
  unfold py_get_tags, the_forecaster, deref. intros Hrun.
  apply bindE_inr in Hrun as (o & Ho & [= <-]).
  destruct v as [|p|repr]; try discriminate.
  destruct (h !! p) as [o'|] eqn:Hp; [|discriminate].
  injection Ho as ->. by exists p, o.
Qed.

Lemma keeps_tag_fails h tag p o :
  h !! p = Some o ->
  keeps_tag h tag (PyForecaster p) <-> fails_tag tag (get_tags (params o)) = false.
Proof.
  intros Hp. rewrite fails_tag_false. split.
  - intros (p' & o' & x & [= <-] & Hp' & Hx & Hne).
    rewrite Hp in Hp'. injection Hp' as <-. eauto.
  - intros (x & Hx & Hne). by exists p, o, x.
Qed.

Lemma true_for_all_loop_inr h tag vals b :
  true_for_all_loop h tag vals = inr b ->
  (b = true <-> Forall (keeps_tag h tag) vals).
Proof.
  revert b. induction vals as [|v rest IH]; intros b Hrun; simpl in Hrun.
  - injection Hrun as <-. split; [constructor|done].
  - apply bindE_inr in Hrun as (ft & Hft & Hrun).
    apply py_get_tags_inr in Hft as (p & o & -> & Hp & ->).
    destruct (fails_tag tag (get_tags (params o))) eqn:Hf.
    + injection Hrun as <-. split; [done|].
      intros Hall. apply Forall_cons in Hall as [Hk _].
      apply (keeps_tag_fails h tag p o Hp) in Hk. congruence.
    + rewrite (IH b Hrun). rewrite Forall_cons.
      rewrite (keeps_tag_fails h tag p o Hp). tauto.
Qed.

Lemma Forall_values {V} (P : V -> Prop) (m : gmap string V) :
  Forall P (map_to_list m).*2 <-> forall k v, m !! k = Some v -> P v.
Proof.
  rewrite Forall_fmap, Forall_forall. split.
  - intros Hall k v Hk. apply (Hall (k, v)). by apply elem_of_map_to_list.
  - intros Hall [k v] Hin. apply (Hall k v). by apply elem_of_map_to_list.
Qed.

Lemma true_for_all_inr h tag fs fb b :
  true_for_all h tag fs fb = inr b ->
  (b = true <->
   (forall k v, fs !! k = Some v -> keeps_tag h tag v) /\
   (fb = PyNone \/ keeps_tag h tag fb))
  /\ (fb = PyNone \/ is_forecaster h fb).
Proof.
  unfold true_for_all. intros Hrun.
  apply bindE_inr in Hrun as (t & Hloop & Hrun).
  apply true_for_all_loop_inr in Hloop. rewrite Forall_values in Hloop.
  destruct fb as [|p|repr]; simpl in Hrun.
  - injection Hrun as <-. split; [|by left]. rewrite Hloop. tauto.
  - apply bindE_inr in Hrun as (ft & Hft & [= <-]).
    apply py_get_tags_inr in Hft as (p' & o & [= <-] & Hp & ->).
    split; [|right; by exists p, o].
    pose proof (keeps_tag_fails h tag p o Hp) as Hk.
    destruct (fails_tag tag (get_tags (params o))).
    + split; [done|]. intros [_ [?|Hkeep]]; [done|].
      apply Hk in Hkeep. done.
    + rewrite Hloop. split; [|tauto].
      intros Hall. split; [done|]. right. by apply Hk.
  - discriminate.
Qed.

Lemma true_if_all_loop_inr h fs fb names : forall d d',
  true_if_all_loop h fs fb names d = inr d' ->
  (forall tag, tag ∈ names ->
     exists b, true_for_all h tag fs fb = inr b /\ d' !! tag = Some (TBool b))
  /\ (forall tag, tag ∉ names -> d' !! tag = d !! tag).
Proof.
  induction names as [|t rest IH]; intros d d' Hrun; simpl in Hrun.
  - injection Hrun as <-. split; [|done]. intros tag Hin. by apply elem_of_nil in Hin.
  - apply bindE_inr in Hrun as (b & Hb & Hrun).
    apply IH in Hrun as [Hin Hout]. split.
    + intros tag Htag. destruct (decide (tag ∈ rest)) as [Hr|Hr]; [by apply Hin|].
      apply elem_of_cons in Htag as [->|Htag]; [|done].
      exists b. split; [done|]. rewrite (Hout t Hr). apply lookup_insert_eq.
    + intros tag Htag. apply not_elem_of_cons in Htag as [Hne Hr].
      rewrite (Hout tag Hr). by apply lookup_insert_ne.
Qed.

Lemma _anytagis_inr h tag value ests b :
  _anytagis h tag value ests = inr b ->
  (b = true <-> Exists (fun kv => has_tag h tag value kv.2) ests)
  /\ Forall (fun kv => is_forecaster h kv.2) ests.
Proof.
  revert b. induction ests as [|[k v] rest IH]; intros b Hrun; simpl in Hrun.
  - injection Hrun as <-. split; [|constructor].
    split; [done|]. intros Hex. by apply Exists_nil in Hex.
  - apply bindE_inr in Hrun as (ft & Hft & Hrun).
    apply bindE_inr in Hrun as (b' & Hrest & [= <-]).
    apply py_get_tags_inr in Hft as (p & o & -> & Hp & ->).
    destruct (IH b' Hrest) as [Hb' Hall]. split.
    + rewrite Exists_cons, <- Hb', orb_true_iff, bool_decide_eq_true.
      simpl. split.
      * intros [Hv|?]; [left|by right]. by exists p, o.
      * intros [(p' & o' & [= <-] & Hp' & Hv)|?]; [left|by right].
        rewrite Hp in Hp'. by injection Hp' as <-.
    + constructor; [|done]. by exists p, o.
Qed.

(** *** What a successful construction leaves *)

Lemma init_inr fs t fb h h' s :
  __init__ fs t fb h = (h', inr s) ->
  exists coerced clones all_tags tags1 pred_int,
    coerce_scitype (transformer_or_default t) "transformer" = inr coerced /\
    assert_forecasters (map_to_list fs).*2 = inr tt /\
    clone_items (map_to_list fs) h = (h', inr clones) /\
    true_if_all_tags h' fs fb = inr all_tags /\
    true_if_any_loop h' (any_estimators fs fb) true_if_any_literal.*1
      (_tags ∪ BaseForecaster_tags) = inr tags1 /\
    tag_item (set_tags all_tags tags1) "capability:pred_int" = inr pred_int /\
    s = {| transformer := transformer_or_default t;
           forecasters := fs;
           fallback_forecaster := fb;
           transformer_ := transformer_clone coerced;
           forecasters_ := list_to_map clones;
           tags := set_tags all_tags tags1;
           _predict_interval_attached := truthy pred_int;
           _predict_var_attached := truthy pred_int;
           _predict_proba_attached := truthy pred_int;
           category_ := None;
           chosen_forecaster_ := None |}.
Proof.
  unfold __init__. intros Hrun.
  apply bind_inr in Hrun as (coerced & h1 & Hco & Hrun).
  apply lift_inr in Hco as [-> Hco].
  apply bind_inr in Hrun as ([] & h1 & Has & Hrun).
  apply lift_inr in Has as [-> Has].
  apply bind_inr in Hrun as (clones & h1 & Hcl & Hrun).
  apply bind_inr in Hrun as (h2 & h3 & Hget & Hrun).
  injection Hget as <- <-.
  apply bind_inr in Hrun as (all_tags & h2 & Hall & Hrun).
  apply lift_inr in Hall as [-> Hall].
  apply bind_inr in Hrun as (tags1 & h2 & Hany & Hrun).
  apply lift_inr in Hany as [-> Hany].
  apply bind_inr in Hrun as (pred_int & h2 & Hpi & Hrun).
  apply lift_inr in Hpi as [-> Hpi].
  injection Hrun as <- <-.
  by exists coerced, clones, all_tags, tags1, pred_int.
Qed.

Lemma init_attributes fs t fb h h' s :
  __init__ fs t fb h = (h', inr s) ->
  forecasters s = fs /\ fallback_forecaster s = fb /\
  category_ s = None /\ chosen_forecaster_ s = None /\
  _predict_var_attached s = _predict_interval_attached s /\
  _predict_proba_attached s = _predict_interval_attached s.
Proof.
  intros Hrun. apply init_inr in Hrun
    as (coerced & clones & all_tags & tags1 & pred_int & _ & _ & _ & _ & _ & _ & ->).
  done.
Qed.

Lemma init_all_tags fs t fb h h' s tag :
  __init__ fs t fb h = (h', inr s) ->
  tag ∈ true_if_all_literal.*1 ->
  exists b, true_for_all h' tag fs fb = inr b /\ tags s !! tag = Some (TBool b).
Proof.
  intros Hrun Htag. apply init_inr in Hrun
    as (coerced & clones & all_tags & tags1 & pred_int
        & _ & _ & _ & Hall & _ & _ & ->).
  apply true_if_all_loop_inr in Hall as [Hin _].
  destruct (Hin tag Htag) as (b & Hb & Hlook).
  exists b. split; [done|]. simpl. unfold set_tags.
  by apply lookup_union_Some_l.
Qed.

Lemma init_requires_fh fs t fb h h' s :
  __init__ fs t fb h = (h', inr s) ->
  exists b,
    _anytagis h' "requires-fh-in-fit" (TBool true) (any_estimators fs fb) = inr b /\
    tags s !! "requires-fh-in-fit" = Some (TBool b).
Proof.
  intros Hrun. apply init_inr in Hrun
    as (coerced & clones & all_tags & tags1 & pred_int
        & _ & _ & _ & Hall & Hany & _ & ->).
  apply true_if_all_loop_inr in Hall as [_ Hout].
  simpl in Hany. unfold _anytagis_then_set in Hany.
  apply bindE_inr in Hany as (t1 & Hb1 & Hany).
  apply bindE_inr in Hb1 as (b1 & Hb1 & [= <-]).
  apply bindE_inr in Hany as (t2 & Hb2 & [= <-]).
  apply bindE_inr in Hb2 as (b2 & Hb2 & [= <-]).
  exists b1. split; [done|]. simpl. unfold set_tags.
  rewrite lookup_union_r.
  - rewrite lookup_union_r by (by apply lookup_singleton_ne).
    apply lookup_union_Some_l. rewrite lookup_singleton_eq. by destruct b1.
  - rewrite Hout; [done|]. apply (bool_decide_unpack _). by vm_compute.
Qed.

Lemma init_store fs t fb h h' s :
  __init__ fs t fb h = (h', inr s) -> exists l, h' = h ++ l.
Proof.
  intros Hrun. apply init_inr in Hrun
    as (coerced & clones & all_tags & tags1 & pred_int
        & _ & _ & Hcl & _ & _ & _ & _).
  by apply clone_items_inr in Hcl as [_ ?].
Qed.

Lemma init_consistent fs t fb h h' s :
  __init__ fs t fb h = (h', inr s) -> consistent (h', s).
Proof.
  intros Hrun.
  destruct (init_all_tags fs t fb h h' s "handles-missing-data" Hrun)
    as (b & Hb & _).
  { apply (bool_decide_unpack _). by vm_compute. }
  apply true_for_all_inr in Hb as [_ Hfb].
  apply init_inr in Hrun
    as (coerced & clones & all_tags & tags1 & pred_int
        & _ & _ & Hcl & _ & _ & _ & ->).
  apply clone_items_inr in Hcl as [Hcopies _].
  split; simpl; [|done].
  intros k v Hk.
  apply elem_of_map_to_list in Hk.
  destruct (Forall2_copy_elem _ _ _ _ Hcopies Hk)
    as ([k' r] & Hin & Hkk & p & o & Hv & Hp & Hr).
  simpl in Hkk, Hv, Hr. subst k' v.
  exists p, o, r, (clone o). split_and!; try done.
  apply elem_of_list_to_map_1; [|done].
  rewrite <- (Forall2_copy_fst _ _ _ Hcopies).
  apply NoDup_fst_map_to_list.
Qed.

(** *** Methods keep the configuration *)

Lemma frame_refl w : frame w w.
Proof. split; [apply store_le_refl|done]. Qed.

Lemma frame_trans w1 w2 w3 : frame w1 w2 -> frame w2 w3 -> frame w1 w3.
Proof.
  intros [H1 H2] [H1' H2'].
  split; [by eapply store_le_trans|]. congruence.
Qed.

Lemma consistent_frame w w' : consistent w -> frame w w' -> consistent w'.
Proof.
  intros [Hfs Hfb] [Hle Hconf].
  injection Hconf as Hf Hf_ Hb _ _ _ _. split.
  - intros k v Hk. rewrite Hf in Hk.
    destruct (Hfs k v Hk) as (p & o & r & o' & -> & Hp & Hr & Ho' & Hpar).
    destruct (Hle p o Hp) as (o2 & Hp2 & Hpar2).
    destruct (Hle r o' Ho') as (o2' & Hr2 & Hpar2').
    exists p, o2, r, o2'. rewrite Hf_. split_and!; try done. congruence.
  - rewrite Hb. destruct Hfb as [?|(p & o & Hv & Hp)]; [by left|right].
    destruct (Hle p o Hp) as (o2 & Hp2 & _). by exists p, o2.
Qed.

Lemma grows_bind {A B} (m : M (list forecaster) A) (k : A -> M (list forecaster) B) :
  grows m -> (forall a, grows (k a)) -> grows (bind m k).
Proof.
  intros Hm Hk h. unfold bind. specialize (Hm h).
  destruct (m h) as [h1 [e|a]]; [done|].
  eapply store_le_trans; [exact Hm|apply Hk].
Qed.

Lemma grows_lift {A} (r : E A) : grows (lift r).
Proof. intros h. apply store_le_refl. Qed.

Lemma grows_raise {A} (e : exn) : grows (raise (A := A) e).
Proof. intros h. apply store_le_refl. Qed.

Lemma grows_get : grows get.
Proof. intros h. apply store_le_refl. Qed.

Lemma grows_py_clone v : grows (py_clone v).
Proof.
  apply grows_bind; [apply grows_get|]. intros h.
  apply grows_bind; [apply grows_lift|]. intros o h'. apply store_le_app.
Qed.

Lemma grows_forecaster_fit r y X fh : grows (forecaster_fit r y X fh).
Proof.
  intros h. unfold forecaster_fit, bind, get, lift, modify, deref.
  destruct (h !! r) as [o|] eqn:Hr; [|apply store_le_refl].
  destruct (fit (params o) y X fh); [apply store_le_refl|].
  by apply store_le_insert.
Qed.

Lemma grows_forecaster_update r y X up : grows (forecaster_update r y X up).
Proof.
  intros h. unfold forecaster_update, bind, get, lift, modify, raise, deref.
  destruct (h !! r) as [o|] eqn:Hr; [|apply store_le_refl].
  destruct (fitted o); [|apply store_le_refl].
  destruct (update (params o) _ y X up); [apply store_le_refl|].
  by apply store_le_insert.
Qed.

Lemma preserves_bind {A B} (m : M World A) (k : A -> M World B) :
  preserves m -> (forall a, preserves (k a)) -> preserves (bind m k).
Proof.
  intros Hm Hk w. unfold bind. specialize (Hm w).
  destruct (m w) as [w1 [e|a]]; [done|].
  eapply frame_trans; [exact Hm|apply Hk].
Qed.

Lemma preserves_pure {A} (r : E A) : preserves (lift r).
Proof. intros w. apply frame_refl. Qed.

Lemma preserves_ret {A} (a : A) : preserves (ret a).
Proof. intros w. apply frame_refl. Qed.

Lemma preserves_raise {A} (e : exn) : preserves (raise (A := A) e).
Proof. intros w. apply frame_refl. Qed.

Lemma preserves_get_self : preserves get_self.
Proof. intros w. apply frame_refl. Qed.

Lemma preserves_on_store {A} (m : M (list forecaster) A) :
  grows m -> preserves (on_store m).
Proof.
  intros Hm [h s]. unfold on_store. simpl. specialize (Hm h).
  destruct (m h) as [h' r]. by split.
Qed.

Lemma preserves_set_attr f :
  (forall s, configuration (f s) = configuration s) ->
  preserves (set_attr f).
Proof. intros Hf [h s]. split; [apply store_le_refl|apply Hf]. Qed.

Lemma preserves_get_chosen_forecaster_ : preserves get_chosen_forecaster_.
Proof.
  apply preserves_bind; [apply preserves_get_self|]. intros s.
  destruct (chosen_forecaster_ s); [apply preserves_ret|apply preserves_raise].
Qed.

Lemma preserves__fit y X fh : preserves (_fit y X fh).
Proof.
  unfold _fit, transformer__fit_transform, get_category_.
  repeat first
    [ apply preserves_bind; [|intros ?]
    | apply preserves_get_self
    | apply preserves_pure
    | apply preserves_ret
    | apply preserves_raise
    | apply preserves_get_chosen_forecaster_
    | apply preserves_set_attr; by intros ?
    | apply preserves_on_store;
        first [apply grows_py_clone | apply grows_forecaster_fit]
    | match goal with |- preserves (if ?b then _ else _) => destruct b end
    | match goal with |- preserves (match ?b with _ => _ end) => destruct b end ].
Qed.

Lemma preserves__update y X up : preserves (_update y X up).
Proof.
  unfold _update.
  apply preserves_bind; [apply preserves_get_chosen_forecaster_|]. intros r.
  apply preserves_on_store, grows_forecaster_update.
Qed.

Lemma reachable_consistent w : reachable w -> consistent w.
Proof.
  induction 1 as [fs t fb h h' s Hinit|w y X fh _ IH|w y X up _ IH|h h' s _ IH Hle].
  - by eapply init_consistent.
  - eapply consistent_frame; [exact IH|apply preserves__fit].
  - eapply consistent_frame; [exact IH|apply preserves__update].
  - eapply consistent_frame; [exact IH|]. by split.
Qed.

(** *** Routing in [_fit] *)

(** [_fit] up to the point where the category has been stored. *)
Lemma _fit_unfold y X fh h s t' df label :
  fit_transform (transformer_ s) y X = inr (t', df) ->
  iloc_0_0 df = inr label ->
  _fit y X fh (h, s) =
    let s1 := set_category_ label (set_transformer_ t' s) in
    bind
      (if negb (bool_decide (is_Some (forecasters s !! label))) then
         if is_None (fallback_forecaster s) then
           raise (ValueError (missing_forecaster_message label))
         else
           bind (on_store (py_clone (fallback_forecaster s)))
             (fun r => set_attr (set_chosen_forecaster_ r))
       else
         bind (lift (dict_item (forecasters_ s) label))
           (fun proto =>
              bind (on_store (py_clone (PyForecaster proto)))
                (fun r => set_attr (set_chosen_forecaster_ r))))
      (fun _ =>
         bind get_chosen_forecaster_
           (fun chosen => on_store (forecaster_fit chosen y X fh)))
      (h, s1).
Proof.
  intros Hft Hloc.
  unfold _fit, transformer__fit_transform.
  unfold bind at 1. unfold bind at 1. unfold bind at 1. unfold get_self at 1.
  unfold bind at 1. unfold lift at 1. simpl. rewrite Hft. simpl.
  unfold bind at 1. unfold lift at 1. rewrite Hloc.
  unfold bind at 1. simpl.
  unfold bind at 1. unfold get_self at 1. simpl.
  unfold bind at 1. unfold get_category_ at 1. unfold bind at 1.
  unfold get_self at 1. simpl. reflexivity.
Qed.

Lemma py_clone_run (h : list forecaster) p o :
  h !! p = Some o ->
  py_clone (PyForecaster p) h = (h ++ [clone o], inr (length h)).
Proof.
  intros Hp. unfold py_clone, bind, get, lift, the_forecaster, deref, alloc.
  by rewrite Hp.
Qed.

Lemma clone_fit_run (m : M (list forecaster) nat) h o s1 y X fh :
  m h = (h ++ [clone o], inr (length h)) ->
  bind (bind (on_store m)
          (fun r => set_attr (set_chosen_forecaster_ r)))
    (fun _ =>
       bind get_chosen_forecaster_
         (fun chosen => on_store (forecaster_fit chosen y X fh)))
    (h, s1) =
  let s' := set_chosen_forecaster_ (length h) s1 in
  match fit (params o) y X fh with
  | inr st => ((h ++ [{| params := params o; fitted := Some st |}], s'), inr tt)
  | inl e => ((h ++ [clone o], s'), inl e)
  end.
Proof.
  intros Hm.
  unfold bind, on_store, set_attr, get_chosen_forecaster_, get_self,
    ret, forecaster_fit, get, lift, modify, deref, bind. simpl.
  rewrite Hm. simpl.
  rewrite lookup_app_r by done. rewrite Nat.sub_diag. simpl.
  destruct (fit (params o) y X fh) as [e|st]; [done|].
  simpl. rewrite insert_app_r_alt by done. rewrite Nat.sub_diag. done.
Qed.

(** C1.  On a compositor that came out of [__init__], whatever has run
    on it since: when the transformer's output holds [label] at position
    [0, 0] and [label] is a key of [forecasters], or it is not and there
    is a fallback, [_fit] creates a new object with the hyper-parameters
    of the forecaster registered under the key (of the fallback, for a
    label that is not a key), stores it as [chosen_forecaster_] and fits
    that object.  Every object already in the store, the prototypes among
    them, is as it was; [_fit] returns if the forecaster's own [fit]
    returns, and otherwise raises what that raised. *)
Theorem fit_routes_to_fresh_clone h s y X fh t' df label :
  reachable (h, s) ->
  fit_transform (transformer_ s) y X = inr (t', df) ->
  iloc_0_0 df = inr label ->
  is_Some (forecasters s !! label) \/ fallback_forecaster s <> PyNone ->
  exists p proto,
    registered_for s label = PyForecaster p /\
    h !! p = Some proto /\
    _fit y X fh (h, s) =
      let s' :=
        set_chosen_forecaster_ (length h)
          (set_category_ label (set_transformer_ t' s)) in
      match fit (params proto) y X fh with
      | inr st =>
          ((h ++ [{| params := params proto; fitted := Some st |}], s'), inr tt)
      | inl e => ((h ++ [clone proto], s'), inl e)
      end.
Proof.
  intros Hreach Hft Hloc Hsel.
  apply reachable_consistent in Hreach as [Hfs Hfb]. simpl in Hfs, Hfb.
  rewrite (_fit_unfold y X fh h s t' df label Hft Hloc). cbv zeta.
  unfold registered_for.
  destruct (forecasters s !! label) as [v|] eqn:Hk.
  - destruct (Hfs label v Hk) as (p & o & r & o' & -> & Hp & Hr & Ho' & Hpar).
    exists p, o. split_and!; [done..|].
    rewrite bool_decide_eq_true_2 by eauto. simpl.
    unfold dict_item. rewrite Hr.
    assert (Hclone : clone o' = clone o) by (unfold clone; by rewrite Hpar).
    rewrite <- (clone_fit_run (py_clone (PyForecaster r)) h o _ y X fh).
    + reflexivity.
    + rewrite <- Hclone. by apply py_clone_run.
  - destruct Hsel as [[? [=]]|Hne].
    destruct Hfb as [?|(p & o & Hv & Hp)]; [done|].
    exists p, o. split_and!; [done..|].
    rewrite bool_decide_eq_false_2 by (intros [? [=]]). simpl.
    rewrite Hv. simpl.
    apply clone_fit_run. by apply py_clone_run.
Qed.

(** [_fit] when the label has neither a forecaster nor a fallback. *)
Lemma _fit_no_forecaster h s y X fh t' df label :
  fit_transform (transformer_ s) y X = inr (t', df) ->
  iloc_0_0 df = inr label ->
  forecasters s !! label = None ->
  fallback_forecaster s = PyNone ->
  _fit y X fh (h, s) =
    ((h, set_category_ label (set_transformer_ t' s)),
     inl (ValueError (missing_forecaster_message label))).
Proof.
  intros Hft Hloc Hk Hfb.
  rewrite (_fit_unfold y X fh h s t' df label Hft Hloc). cbv zeta.
  rewrite Hk, Hfb.
  rewrite bool_decide_eq_false_2 by (intros [? [=]]). reflexivity.
Qed.

(** C2.  When the label read from the transformer's output is not a key
    of [forecasters] and [fallback_forecaster] is [None], [_fit] raises a
    [ValueError] whose message contains the label. *)
Theorem fit_raises_without_forecaster h s y X fh t' df label :
  fit_transform (transformer_ s) y X = inr (t', df) ->
  iloc_0_0 df = inr label ->
  forecasters s !! label = None ->
  fallback_forecaster s = PyNone ->
  (_fit y X fh (h, s)).2 =
    inl (ValueError
           ("Forecaster not provided for giventime series of type "
            +:+ label
            +:+ "and no fallback forecaster provided to use for this case.")).
Proof.
  intros Hft Hloc Hk Hfb.
  by rewrite (_fit_no_forecaster h s y X fh t' df label Hft Hloc Hk Hfb).
Qed.

(** With no forecasters and no fallback, every label is refused. *)
Corollary fit_raises_on_empty_configuration h s y X fh t' df label :
  fit_transform (transformer_ s) y X = inr (t', df) ->
  iloc_0_0 df = inr label ->
  forecasters s = ∅ ->
  fallback_forecaster s = PyNone ->
  (_fit y X fh (h, s)).2 = inl (ValueError (missing_forecaster_message label)).
Proof.
  intros Hft Hloc Hfs Hfb.
  rewrite (_fit_no_forecaster h s y X fh t' df label Hft Hloc); [done| |done].
  rewrite Hfs. apply lookup_empty.
Qed.

(** C5, as the code has it.  When [_fit] raises because the label has
    neither a forecaster nor a fallback, the store, [chosen_forecaster_]
    and the configuration are as before the call, so a compositor that
    was never fitted still has no chosen forecaster; [category_] holds
    the new label and [transformer_] has been fitted on the new series. *)
Theorem failed_routing_keeps_chosen_forecaster h s y X fh t' df label :
  fit_transform (transformer_ s) y X = inr (t', df) ->
  iloc_0_0 df = inr label ->
  forecasters s !! label = None ->
  fallback_forecaster s = PyNone ->
  let w' := (_fit y X fh (h, s)).1 in
  w'.1 = h /\
  chosen_forecaster_ w'.2 = chosen_forecaster_ s /\
  forecasters w'.2 = forecasters s /\
  forecasters_ w'.2 = forecasters_ s /\
  fallback_forecaster w'.2 = fallback_forecaster s /\
  transformer w'.2 = transformer s /\
  tags w'.2 = tags s /\
  _predict_interval_attached w'.2 = _predict_interval_attached s /\
  _predict_var_attached w'.2 = _predict_var_attached s /\
  _predict_proba_attached w'.2 = _predict_proba_attached s /\
  category_ w'.2 = Some label /\
  transformer_ w'.2 = t'.
Proof.
  intros Hft Hloc Hk Hfb.
  rewrite (_fit_no_forecaster h s y X fh t' df label Hft Hloc Hk Hfb).
  simpl. split_and!; reflexivity.
Qed.

(** *** [_update] *)

(** C6.  [_update] writes no attribute of the compositor: [category_],
    [chosen_forecaster_] and the transformer are what they were.  It calls
    [update] on the chosen forecaster and nothing else: the store keeps
    its size and every other object, and the chosen object keeps its
    hyper-parameters. *)
Theorem update_keeps_route y X update_params (w : World) :
  let w' := (_update y X update_params w).1 in
  w'.2 = w.2 /\
  category_ w'.2 = category_ w.2 /\
  chosen_forecaster_ w'.2 = chosen_forecaster_ w.2 /\
  transformer_ w'.2 = transformer_ w.2 /\
  length w'.1 = length w.1 /\
  (forall r, chosen_forecaster_ w.2 <> Some r -> w'.1 !! r = w.1 !! r) /\
  store_le w.1 w'.1.
Proof.
  destruct w as [h s]. simpl.
  assert (Hself : (_update y X update_params (h, s)).1.2 = s
                  /\ length (_update y X update_params (h, s)).1.1 = length h
                  /\ forall r, chosen_forecaster_ s <> Some r ->
                       (_update y X update_params (h, s)).1.1 !! r = h !! r).
  { unfold _update, get_chosen_forecaster_, bind, get_self, ret, raise,
      on_store, forecaster_update, bind, get, lift, modify, deref. simpl.
    destruct (chosen_forecaster_ s) as [c|]; simpl; [|done].
    destruct (h !! c) as [o|]; simpl; [|done].
    destruct (fitted o) as [st|]; simpl; [|done].
    destruct (update (params o) st y X update_params) as [e|st']; simpl; [done|].
    split_and!; [done|by rewrite length_insert|].
    intros r Hr. apply list_lookup_insert_ne. congruence. }
  destruct Hself as (Hs & Hlen & Hother).
  rewrite Hs. split_and!; try done.
  apply (preserves__update y X update_params (h, s)).
Qed.

(** What [_update] does to the chosen forecaster. *)
Lemma update_forwards y X update_params h s c o st :
  chosen_forecaster_ s = Some c ->
  h !! c = Some o ->
  fitted o = Some st ->
  _update y X update_params (h, s) =
    match update (params o) st y X update_params with
    | inr st' => ((<[c := {| params := params o; fitted := Some st' |}]> h, s), inr tt)
    | inl e => ((h, s), inl e)
    end.
Proof.
  intros Hc Ho Hst.
  unfold _update, get_chosen_forecaster_, bind, get_self, ret, raise,
    on_store, forecaster_update, bind, get, lift, modify, deref. simpl.
  rewrite Hc. simpl. rewrite Ho. simpl. rewrite Hst.
  by destruct (update (params o) st y X update_params).
Qed.

(** *** The property [_forecasters] *)

Lemma setter_forecasters new : forall s key,
  key <> "fallback_forecaster" ->
  forecasters (_forecasters_setter new s) !! key
  = last_assigned key new (forecasters s !! key).
Proof.
  induction new as [|[category f] rest IH]; intros s key Hkey; [done|].
  cbn [_forecasters_setter last_assigned]. rewrite (IH _ key Hkey). f_equal.
  destruct (String.eqb_spec category "fallback_forecaster") as [->|Hc];
    cbn [negb forecasters set_forecasters set_fallback_forecaster].
  - destruct (String.eqb_spec "fallback_forecaster" key); [congruence|done].
  - destruct (String.eqb_spec category key) as [->|Hne].
    + apply lookup_insert_eq.
    + by apply lookup_insert_ne.
Qed.

Lemma setter_reserved new : forall s,
  forecasters (_forecasters_setter new s) !! "fallback_forecaster"
  = forecasters s !! "fallback_forecaster".
Proof.
  induction new as [|[category f] rest IH]; intros s; [done|].
  cbn [_forecasters_setter]. rewrite IH.
  destruct (String.eqb_spec category "fallback_forecaster") as [->|Hc];
    cbn [negb forecasters set_forecasters set_fallback_forecaster].
  - done.
  - by apply lookup_insert_ne.
Qed.

Lemma setter_fallback new : forall s,
  Some (fallback_forecaster (_forecasters_setter new s))
  = last_assigned "fallback_forecaster" new (Some (fallback_forecaster s)).
Proof.
  induction new as [|[category f] rest IH]; intros s; [done|].
  cbn [_forecasters_setter last_assigned]. rewrite IH. f_equal.
  by destruct (String.eqb_spec category "fallback_forecaster") as [->|Hc].
Qed.

(** C10.  The property [_forecasters] lists the items of [forecasters]
    and then one more entry, ["fallback_forecaster"] with the fallback,
    also when the fallback is [None].  Its setter puts the value of an
    entry named ["fallback_forecaster"] into [fallback_forecaster] and
    every other entry into [forecasters], later entries winning; the key
    ["fallback_forecaster"] of [forecasters] is never written. *)
Theorem forecasters_property_reserves_fallback_key s new :
  _forecasters s
    = map_to_list (forecasters s)
        ++ [("fallback_forecaster", fallback_forecaster s)]
  /\ (fallback_forecaster s = PyNone ->
      last (_forecasters s) = Some ("fallback_forecaster", PyNone))
  /\ (forall key, key <> "fallback_forecaster" ->
        forecasters (_forecasters_setter new s) !! key
        = last_assigned key new (forecasters s !! key))
  /\ Some (fallback_forecaster (_forecasters_setter new s))
      = last_assigned "fallback_forecaster" new (Some (fallback_forecaster s))
  /\ forecasters (_forecasters_setter new s) !! "fallback_forecaster"
      = forecasters s !! "fallback_forecaster".
Proof.
  split_and!.
  - reflexivity.
  - intros Hnone. unfold _forecasters. rewrite last_snoc. by rewrite Hnone.
  - apply setter_forecasters.
  - apply setter_fallback.
  - apply setter_reserved.
Qed.

(** *** The check of the forecasters at construction *)

Lemma assert_forecasters_inr vals :
  assert_forecasters vals = inr tt <->
  Forall (fun v => isinstance_BaseForecaster v = true) vals.
Proof.
  induction vals as [|v rest IH]; simpl.
  - split; [constructor|done].
  - rewrite Forall_cons. destruct (isinstance_BaseForecaster v).
    + rewrite IH. tauto.
    + split; [discriminate|]. intros [[=] _].
Qed.

Lemma assert_forecasters_cases vals :
  assert_forecasters vals = inr tt \/ assert_forecasters vals = inl AssertionError.
Proof.
  induction vals as [|v rest IH]; simpl; [by left|].
  destruct (isinstance_BaseForecaster v); [done|by right].
Qed.

(** C8.  If some value of [forecasters] is not a forecaster, [__init__]
    raises and yields no compositor: the error of [coerce_scitype] if the
    transformer is refused, and [AssertionError] otherwise, before any
    copy is made.  If every value is a forecaster the check passes,
    whatever the transformer and the fallback are. *)
Theorem init_checks_forecasters fs t fb h :
  ((exists k v, fs !! k = Some v /\ isinstance_BaseForecaster v = false) ->
   __init__ fs t fb h =
     (h, inl match coerce_scitype (transformer_or_default t) "transformer" with
             | inl e => e
             | inr _ => AssertionError
             end))
  /\ ((forall k v, fs !! k = Some v -> isinstance_BaseForecaster v = true) ->
      assert_forecasters (map_to_list fs).*2 = inr tt).
Proof.
  split.
  - intros (k & v & Hk & Hv).
    unfold __init__. unfold bind at 1. unfold lift at 1.
    destruct (coerce_scitype (transformer_or_default t) "transformer")
      as [e|coerced]; [done|].
    unfold bind at 1. unfold lift at 1.
    destruct (assert_forecasters_cases (map_to_list fs).*2) as [Hok| ->]; [|done].
    apply assert_forecasters_inr in Hok. rewrite Forall_values in Hok.
    rewrite (Hok k v Hk) in Hv. discriminate.
  - intros Hall. apply assert_forecasters_inr. by apply Forall_values.
Qed.

(** *** The tags of the compositor *)

Lemma init_all_tag_value fs t fb h h' s tag :
  __init__ fs t fb h = (h', inr s) ->
  tag ∈ true_if_all_literal.*1 ->
  exists b,
    tags s !! tag = Some (TBool b) /\
    (b = true <->
     (forall k v, fs !! k = Some v -> keeps_tag h' tag v) /\
     (fb = PyNone \/ keeps_tag h' tag fb)).
Proof.
  intros Hrun Htag.
  destruct (init_all_tags fs t fb h h' s tag Hrun Htag) as (b & Hb & Hlook).
  exists b. split; [done|]. by apply true_for_all_inr in Hb as [Hb _].
Qed.

(** What the all-required loop computes.  After construction each of the
    seven tags of [true_if_all_tags] is a boolean, and it is [True]
    exactly when every forecaster of the mapping, and the fallback when
    there is one, has the tag with a value that is not [False]. *)
Theorem all_required_flag fs t fb h h' s tag :
  __init__ fs t fb h = (h', inr s) ->
  tag ∈ true_if_all_literal.*1 ->
  exists b,
    tags s !! tag = Some (TBool b) /\
    (b = true <->
     (forall k v, fs !! k = Some v -> keeps_tag h' tag v) /\
     (fb = PyNone \/ keeps_tag h' tag fb)).
Proof. apply init_all_tag_value. Qed.

Lemma keeps_boolean_tag h tag v :
  boolean_tag h tag v -> keeps_tag h tag v <-> has_tag h tag (TBool true) v.
Proof.
  intros Hbool. split.
  - intros (p & o & x & -> & Hp & Hx & Hne).
    destruct (Hbool p o x eq_refl Hp Hx) as [[] ->]; [|done]. by exists p, o.
  - intros (p & o & -> & Hp & Hx). by exists p, o, (TBool true).
Qed.

(** For a tag whose values are booleans, "not [False]" is "[True]": the
    flag of the compositor is the conjunction of the flags. *)
Corollary boolean_flag_is_conjunction fs t fb h h' s tag :
  __init__ fs t fb h = (h', inr s) ->
  tag ∈ true_if_all_literal.*1 ->
  (forall k v, fs !! k = Some v -> boolean_tag h' tag v) ->
  boolean_tag h' tag fb ->
  tags s !! tag = Some (TBool true) <->
    (forall k v, fs !! k = Some v -> has_tag h' tag (TBool true) v) /\
    (fb = PyNone \/ has_tag h' tag (TBool true) fb).
Proof.
  intros Hrun Htag Hfs Hfb.
  destruct (init_all_tag_value fs t fb h h' s tag Hrun Htag) as (b & -> & Hb).
  split.
  - intros [= ->]. destruct Hb as [[Hall Hfall] _]; [done|]. split.
    + intros k v Hk. apply keeps_boolean_tag; eauto.
    + destruct Hfall as [?|?]; [by left|right]. by apply keeps_boolean_tag.
  - intros [Hall Hfall]. do 2 f_equal. apply Hb. split.
    + intros k v Hk. apply keeps_boolean_tag; eauto.
    + destruct Hfall as [?|?]; [by left|right]. by apply keeps_boolean_tag.
Qed.

(** With no forecasters in the mapping the flag is that of the fallback. *)
Corollary empty_mapping_flag_of_fallback t fb h h' s tag :
  __init__ ∅ t fb h = (h', inr s) ->
  tag ∈ true_if_all_literal.*1 ->
  has_tag h' tag (TBool true) fb ->
  tags s !! tag = Some (TBool true).
Proof.
  intros Hrun Htag (p & o & -> & Hp & Hx).
  destruct (init_all_tag_value ∅ t _ h h' s tag Hrun Htag) as (b & -> & Hb).
  do 2 f_equal. apply Hb. split.
  - intros k v Hk. by rewrite lookup_empty in Hk.
  - right. by exists p, o, (TBool true).
Qed.

(** C9.  After construction the tag ["X-y-must-have-same-index"] holds
    the value the all-required loop computed for it, whatever the
    any-triggers pass had written under that name before. *)
Theorem same_index_flag_follows_all_rule fs t fb h h' s :
  __init__ fs t fb h = (h', inr s) ->
  exists all_tags b,
    true_if_all_tags h' fs fb = inr all_tags /\
    true_for_all h' "X-y-must-have-same-index" fs fb = inr b /\
    (forall written_before,
       set_tags all_tags written_before !! "X-y-must-have-same-index"
       = Some (TBool b)) /\
    tags s !! "X-y-must-have-same-index" = Some (TBool b).
Proof.
  intros Hrun. apply init_inr in Hrun
    as (coerced & clones & all_tags & tags1 & pred_int
        & _ & _ & _ & Hall & _ & _ & ->).
  pose proof Hall as Hloop.
  apply true_if_all_loop_inr in Hloop as [Hin _].
  destruct (Hin "X-y-must-have-same-index") as (b & Hb & Hlook).
  { apply (bool_decide_unpack _). by vm_compute. }
  exists all_tags, b. split_and!; [done..| |].
  - intros written. unfold set_tags. by apply lookup_union_Some_l.
  - simpl. unfold set_tags. by apply lookup_union_Some_l.
Qed.

Lemma Exists_any_estimators (P : pyobj -> Prop) fs fb :
  ~ P PyNone ->
  Exists (fun kv => P kv.2) (any_estimators fs fb) <->
  (exists k v, fs !! k = Some v /\ P v) \/ P fb.
Proof.
  intros Hnone. unfold any_estimators. rewrite Exists_app, !Exists_exists.
  split.
  - intros [([k v] & Hin & HP)|(kv & Hin & HP)].
    + left. exists k, v. split; [|done]. by apply elem_of_map_to_list.
    + right. destruct fb; simpl in Hin.
      * by apply elem_of_nil in Hin.
      * by apply list_elem_of_singleton in Hin as ->.
      * by apply list_elem_of_singleton in Hin as ->.
  - intros [(k & v & Hk & HP)|HP].
    + left. exists (k, v). split; [|done]. by apply elem_of_map_to_list.
    + right. exists ("", fb). split; [|done].
      destruct fb; simpl; [done| |]; by apply list_elem_of_singleton.
Qed.

(** The tag of [true_if_any_tags] that is not overwritten.  After
    construction ["requires-fh-in-fit"] is a boolean, and it is [True]
    exactly when it is [True] for a forecaster of the mapping or for the
    fallback. *)
Theorem requires_fh_flag_any fs t fb h h' s :
  __init__ fs t fb h = (h', inr s) ->
  exists b,
    tags s !! "requires-fh-in-fit" = Some (TBool b) /\
    (b = true <->
     (exists k v, fs !! k = Some v /\
                  has_tag h' "requires-fh-in-fit" (TBool true) v)
     \/ has_tag h' "requires-fh-in-fit" (TBool true) fb).
Proof.
  intros Hrun.
  destruct (init_requires_fh fs t fb h h' s Hrun) as (b & Hb & Hlook).
  exists b. split; [done|].
  apply _anytagis_inr in Hb as [Hb _]. rewrite Hb.
  apply Exists_any_estimators. by intros (p & o & [=] & _).
Qed.

(** *** The probabilistic methods *)

Lemma reachable_configuration w :
  reachable w ->
  exists fs t fb h h' s,
    __init__ fs t fb h = (h', inr s) /\ configuration w.2 = configuration s.
Proof.
  induction 1 as [fs t fb h h' s Hinit|w y X fh _ IH|w y X up _ IH|h h' s _ IH Hle].
  - by exists fs, t, fb, h, h', s.
  - destruct IH as (fs & t & fb & h & h' & s & Hinit & Hconf).
    exists fs, t, fb, h, h', s. split; [done|].
    destruct (preserves__fit y X fh w) as [_ ->]. done.
  - destruct IH as (fs & t & fb & h & h' & s & Hinit & Hconf).
    exists fs, t, fb, h, h', s. split; [done|].
    destruct (preserves__update y X up w) as [_ ->]. done.
  - done.
Qed.

Lemma init_pred_int_wired fs t fb h h' s :
  __init__ fs t fb h = (h', inr s) -> exists b, pred_int_wired s b.
Proof.
  intros Hrun.
  destruct (init_all_tags fs t fb h h' s "capability:pred_int" Hrun)
    as (b & _ & Hlook).
  { apply (bool_decide_unpack _). by vm_compute. }
  apply init_inr in Hrun
    as (coerced & clones & all_tags & tags1 & pred_int
        & _ & _ & _ & _ & _ & Hitem & ->).
  simpl in Hlook. unfold tag_item in Hitem. rewrite Hlook in Hitem.
  injection Hitem as <-. exists b. by split_and!.
Qed.

Lemma reachable_pred_int_wired w :
  reachable w -> exists b, pred_int_wired w.2 b.
Proof.
  intros Hreach.
  destruct (reachable_configuration w Hreach)
    as (fs & t & fb & h & h' & s & Hinit & Hconf).
  destruct (init_pred_int_wired fs t fb h h' s Hinit) as (b & H1 & H2 & H3 & H4).
  injection Hconf as _ _ _ Htags Hi Hv Hp.
  exists b. unfold pred_int_wired. by rewrite Htags, Hi, Hv, Hp.
Qed.

Lemma probabilistic_entry_unsupported {A} attached (impl : M World A) h s :
  tags s !! "capability:pred_int" = Some (TBool false) ->
  probabilistic_entry attached impl (h, s) = ((h, s), inl UnsupportedOperation).
Proof.
  intros Htag. unfold probabilistic_entry, bind, get_self, lift, tag_item.
  simpl. by rewrite Htag.
Qed.

Lemma probabilistic_entry_unbound {A} (impl : M World A) h s c :
  tags s !! "capability:pred_int" = Some (TBool true) ->
  chosen_forecaster_ s = Some c ->
  probabilistic_entry true impl (h, s) = ((h, s), inl missing_self).
Proof.
  intros Htag Hc. unfold probabilistic_entry, bind, get_self, lift, tag_item.
  simpl. by rewrite Htag, Hc.
Qed.

Lemma query_chosen {A} (meth : Params -> Fitted -> E A) h s c o st :
  chosen_forecaster_ s = Some c ->
  h !! c = Some o ->
  fitted o = Some st ->
  bind get_chosen_forecaster_ (fun chosen => on_store (forecaster_query meth chosen))
    (h, s) = ((h, s), meth (params o) st).
Proof.
  intros Hc Ho Hst.
  unfold bind, get_chosen_forecaster_, get_self, ret, on_store,
    forecaster_query, bind, get, lift, deref. simpl.
  rewrite Hc. simpl. rewrite Ho. simpl. by rewrite Hst.
Qed.

Lemma public_predict_interval_eq fh X coverage h s :
  public_predict_interval fh X coverage (h, s)
  = probabilistic_entry (_predict_interval_attached s)
      (_predict_interval fh X coverage) (h, s).
Proof. reflexivity. Qed.

Lemma public_predict_var_eq fh X cov h s :
  public_predict_var fh X cov (h, s)
  = probabilistic_entry (_predict_var_attached s) (_predict_var fh X cov) (h, s).
Proof. reflexivity. Qed.

Lemma public_predict_proba_eq fh X marginal h s :
  public_predict_proba fh X marginal (h, s)
  = probabilistic_entry (_predict_proba_attached s)
      (_predict_proba fh X marginal) (h, s).
Proof. reflexivity. Qed.

(** The three functions of the module, applied to the compositor: each
    hands its arguments to the method of the chosen forecaster and
    returns what that returns. *)
Lemma module_functions_forward h s fh X coverage cov marginal c o st :
  chosen_forecaster_ s = Some c -> h !! c = Some o -> fitted o = Some st ->
  _predict_interval fh X coverage (h, s)
    = ((h, s), predict_interval (params o) st fh X coverage) /\
  _predict_var fh X cov (h, s)
    = ((h, s), predict_var (params o) st fh X cov) /\
  _predict_proba fh X marginal (h, s)
    = ((h, s), predict_proba (params o) st fh X marginal).
Proof.
  intros Hc Ho Hst.
  unfold _predict_interval, _predict_var, _predict_proba.
  split_and!.
  - exact (query_chosen (fun p st => predict_interval p st fh X coverage)
             h s c o st Hc Ho Hst).
  - exact (query_chosen (fun p st => predict_var p st fh X cov)
             h s c o st Hc Ho Hst).
  - exact (query_chosen (fun p st => predict_proba p st fh X marginal)
             h s c o st Hc Ho Hst).
Qed.

(** The entry points on a compositor that came out of [__init__]: the tag
    [capability:pred_int] is a boolean [b], and [_predict_interval],
    [_predict_var] and [_predict_proba] are attached exactly when [b] is
    [True].  When it is [False] the three entry points raise
    [UnsupportedOperation].  When it is [True] and a forecaster has been
    chosen, each entry point raises [TypeError]: the attached function is
    called without [self], and the chosen forecaster is not reached. *)
Lemma probabilistic_entry_points h s fh X coverage cov marginal :
  reachable (h, s) ->
  exists b,
    tags s !! "capability:pred_int" = Some (TBool b) /\
    _predict_interval_attached s = b /\
    _predict_var_attached s = b /\
    _predict_proba_attached s = b /\
    (b = false ->
     public_predict_interval fh X coverage (h, s)
       = ((h, s), inl UnsupportedOperation) /\
     public_predict_var fh X cov (h, s)
       = ((h, s), inl UnsupportedOperation) /\
     public_predict_proba fh X marginal (h, s)
       = ((h, s), inl UnsupportedOperation)) /\
    (b = true ->
     forall c,
       chosen_forecaster_ s = Some c ->
       public_predict_interval fh X coverage (h, s)
         = ((h, s), inl missing_self) /\
       public_predict_var fh X cov (h, s) = ((h, s), inl missing_self) /\
       public_predict_proba fh X marginal (h, s) = ((h, s), inl missing_self)).
Proof.
  intros Hreach.
  destruct (reachable_pred_int_wired (h, s) Hreach) as (b & Htag & Hi & Hv & Hp).
  simpl in Htag, Hi, Hv, Hp.
  exists b. split_and!; try done.
  - intros ->.
    rewrite public_predict_interval_eq, public_predict_var_eq,
      public_predict_proba_eq.
    split_and!; by apply probabilistic_entry_unsupported.
  - intros -> c Hc.
    rewrite public_predict_interval_eq, public_predict_var_eq,
      public_predict_proba_eq.
    rewrite Hi, Hv, Hp.
    split_and!; by apply (probabilistic_entry_unbound _ h s c).
Qed.

End Properties.

(** ** The compositor at work *)

Lemma constructed_inr fs t fb :
  returned (__init__ (C := Toy.toy) fs t fb Toy.store0) = true ->
  __init__ (C := Toy.toy) fs t fb Toy.store0
  = ((Toy.constructed fs t fb).1, inr (Toy.constructed fs t fb).2).
Proof. apply returned_inr. Qed.

Lemma constructed_reachable fs t fb :
  returned (__init__ (C := Toy.toy) fs t fb Toy.store0) = true ->
  reachable ((Toy.constructed fs t fb).1, (Toy.constructed fs t fb).2).
Proof.
  intros Hret. apply (reach_init fs t fb Toy.store0). by apply constructed_inr.
Qed.

Lemma fit_routes_to_fresh_clone_witness :
  exists (h : list (forecaster (C := Toy.toy))) s,
    __init__ (C := Toy.toy) Toy.only_smooth None PyNone Toy.store0 = (h, inr s) /\
    exists p proto,
      registered_for s "smooth" = PyForecaster p /\
      h !! p = Some proto /\
      _fit (C := Toy.toy) Toy.smooth_series None None (h, s) =
        let s' :=
          set_chosen_forecaster_ (length h)
            (set_category_ "smooth"
               (set_transformer_ (C := Toy.toy)
                  {| Toy.features := ["class"]; Toy.seen := Some Toy.smooth_series |}
                  s)) in
        match Toy.toy_fit (params proto) Toy.smooth_series None None with
        | inr st =>
            ((h ++ [@Build_forecaster Toy.toy (params proto) (Some st)], s'), inr tt)
        | inl e => ((h ++ [clone proto], s'), inl e)
        end.
Proof.
  exists (Toy.constructed Toy.only_smooth None PyNone).1,
         (Toy.constructed Toy.only_smooth None PyNone).2.
  split; [apply constructed_inr; vm_compute; reflexivity|].
  eapply (fit_routes_to_fresh_clone (C := Toy.toy)).
  - apply constructed_reachable. vm_compute. reflexivity.
  - vm_compute. reflexivity.
  - vm_compute. reflexivity.
  - left. vm_compute. eexists. reflexivity.
Defined.

Lemma fitted_on_inr y w :
  returned (_fit (C := Toy.toy) y None None w) = true ->
  _fit (C := Toy.toy) y None None w
  = (((Toy.fitted_on y w).1, (Toy.fitted_on y w).2), inr tt).
Proof. apply returned_unit. Qed.

Local Abbreviation constructed_smooth :=
  (Toy.constructed Toy.only_smooth None PyNone).
Local Abbreviation fitted_smooth :=
  (Toy.fitted_on Toy.smooth_series (constructed_smooth.1, constructed_smooth.2)).

(** The run behind the witness above, step by step: the copy kept at
    construction is object 3, the chosen forecaster is the new object 4,
    and the prototype, object 0, stays unfitted. *)
Example fit_smooth_series :
  exists h s h' s',
    __init__ (C := Toy.toy) Toy.only_smooth None PyNone Toy.store0 = (h, inr s) /\
    _fit (C := Toy.toy) Toy.smooth_series None None (h, s) = ((h', s'), inr tt) /\
    forecasters_ s !! "smooth" = Some 3 /\
    category_ s' = Some "smooth" /\
    chosen_forecaster_ s' = Some 4 /\
    h' !! 4 = Some (@Build_forecaster Toy.toy Toy.naive (Some Toy.smooth_series)) /\
    h' !! 3 = Some (Toy.unfitted Toy.naive) /\
    h' !! 0 = Some (Toy.unfitted Toy.naive).
Proof.
  exists constructed_smooth.1, constructed_smooth.2,
         fitted_smooth.1, fitted_smooth.2.
  split; [apply constructed_inr; vm_compute; reflexivity|].
  split; [apply fitted_on_inr; vm_compute; reflexivity|].
  repeat apply conj; vm_compute; reflexivity.
Qed.

Lemma fit_raises_without_forecaster_witness :
  exists (h : list (forecaster (C := Toy.toy))) s,
    __init__ (C := Toy.toy) Toy.only_smooth None PyNone Toy.store0 = (h, inr s) /\
    (_fit (C := Toy.toy) Toy.intermittent_series None None (h, s)).2 =
      inl (ValueError
             ("Forecaster not provided for giventime series of type "
              +:+ "intermittent"
              +:+ "and no fallback forecaster provided to use for this case.")).
Proof.
  exists (Toy.constructed Toy.only_smooth None PyNone).1,
         (Toy.constructed Toy.only_smooth None PyNone).2.
  split; [apply constructed_inr; vm_compute; reflexivity|].
  eapply (fit_raises_without_forecaster (C := Toy.toy));
    vm_compute; reflexivity.
Defined.

(** C5 fails on the code.  A compositor with a forecaster for "smooth"
    only is fitted on a smooth series and then on an intermittent one.
    The second call raises, and afterwards [category_] is "intermittent"
    while the chosen forecaster is still the one fitted on the smooth
    series.  On a compositor that was never fitted the failed call leaves
    [category_] set. *)
Lemma failed_fit_overwrites_category :
  exists (h : list (forecaster (C := Toy.toy))) s,
    __init__ (C := Toy.toy) Toy.only_smooth None PyNone Toy.store0 = (h, inr s) /\
    let first := _fit (C := Toy.toy) Toy.smooth_series None None (h, s) in
    let second := _fit (C := Toy.toy) Toy.intermittent_series None None first.1 in
    first.2 = inr tt /\
    second.2 = inl (ValueError (missing_forecaster_message "intermittent")) /\
    category_ first.1.2 = Some "smooth" /\
    category_ second.1.2 = Some "intermittent" /\
    chosen_forecaster_ first.1.2 = Some 4 /\
    chosen_forecaster_ second.1.2 = Some 4 /\
    second.1 <> first.1 /\
    category_ s = None /\
    category_ (_fit (C := Toy.toy) Toy.intermittent_series None None (h, s)).1.2
      = Some "intermittent".
Proof.
  exists (Toy.constructed Toy.only_smooth None PyNone).1,
         (Toy.constructed Toy.only_smooth None PyNone).2.
  split; [apply constructed_inr; vm_compute; reflexivity|].
  cbv zeta. repeat apply conj; try (vm_compute; reflexivity).
  intros Heq. apply (f_equal (fun w => category_ w.2)) in Heq.
  vm_compute in Heq. discriminate.
Qed.

Lemma failed_routing_keeps_chosen_forecaster_witness :
  exists (h : list (forecaster (C := Toy.toy))) s,
    __init__ (C := Toy.toy) Toy.only_smooth None PyNone Toy.store0 = (h, inr s) /\
    let w' := (_fit (C := Toy.toy) Toy.intermittent_series None None (h, s)).1 in
    w'.1 = h /\
    chosen_forecaster_ w'.2 = chosen_forecaster_ s /\
    forecasters w'.2 = forecasters s /\
    forecasters_ w'.2 = forecasters_ s /\
    fallback_forecaster w'.2 = fallback_forecaster s /\
    transformer w'.2 = transformer s /\
    tags w'.2 = tags s /\
    _predict_interval_attached w'.2 = _predict_interval_attached s /\
    _predict_var_attached w'.2 = _predict_var_attached s /\
    _predict_proba_attached w'.2 = _predict_proba_attached s /\
    category_ w'.2 = Some "intermittent" /\
    transformer_ w'.2
      = {| Toy.features := ["class"]; Toy.seen := Some Toy.intermittent_series |}.
Proof.
  exists (Toy.constructed Toy.only_smooth None PyNone).1,
         (Toy.constructed Toy.only_smooth None PyNone).2.
  split; [apply constructed_inr; vm_compute; reflexivity|].
  eapply (failed_routing_keeps_chosen_forecaster (C := Toy.toy));
    vm_compute; reflexivity.
Defined.

Lemma update_keeps_route_witness :
  exists (h : list (forecaster (C := Toy.toy))) s h1 s1,
    __init__ (C := Toy.toy) Toy.only_smooth None PyNone Toy.store0 = (h, inr s) /\
    _fit (C := Toy.toy) Toy.smooth_series None None (h, s) = ((h1, s1), inr tt) /\
    let w : World (C := Toy.toy) := (h1, s1) in
    let w' := (_update (C := Toy.toy) Toy.intermittent_series None true w).1 in
    w'.2 = w.2 /\
    category_ w'.2 = category_ w.2 /\
    chosen_forecaster_ w'.2 = chosen_forecaster_ w.2 /\
    transformer_ w'.2 = transformer_ w.2 /\
    length w'.1 = length w.1 /\
    (forall r, chosen_forecaster_ w.2 <> Some r -> w'.1 !! r = w.1 !! r) /\
    store_le w.1 w'.1.
Proof.
  exists constructed_smooth.1, constructed_smooth.2,
         fitted_smooth.1, fitted_smooth.2.
  split; [apply constructed_inr; vm_compute; reflexivity|].
  split; [apply fitted_on_inr; vm_compute; reflexivity|].
  exact (update_keeps_route (C := Toy.toy) Toy.intermittent_series None true
           (fitted_smooth.1, fitted_smooth.2)).
Defined.

(** The same run, step by step: after a fit on a smooth series, an update
    with an intermittent series reaches the chosen forecaster, object 4,
    and the category stays "smooth". *)
Example update_intermittent_series :
  let w' :=
    (_update (C := Toy.toy) Toy.intermittent_series None true
       (fitted_smooth.1, fitted_smooth.2)).1 in
  category_ fitted_smooth.2 = Some "smooth" /\
  category_ w'.2 = Some "smooth" /\
  chosen_forecaster_ w'.2 = Some 4 /\
  w'.1 !! 4 =
    Some (@Build_forecaster Toy.toy Toy.naive
            (Some (Toy.smooth_series ++ Toy.intermittent_series))) /\
  Toy.toy_classify Toy.intermittent_series = "intermittent".
Proof. cbv zeta. repeat apply conj; vm_compute; reflexivity. Qed.

Lemma fitted_on_reachable y w :
  reachable (C := Toy.toy) w ->
  reachable ((Toy.fitted_on y w).1, (Toy.fitted_on y w).2).
Proof.
  intros Hw. pose proof (reach_fit w y None None Hw) as Hfit.
  unfold Toy.fitted_on. by destruct (_fit (C := Toy.toy) y None None w).1.
Qed.

(** C3.  The claim: a flag of [true_if_all_tags] is true for the
    compositor if and only if it is true for every forecaster and for the
    fallback; the comment above the loop says the same, "True if they are
    True for all of the given forecasters".  The code tests [is False]
    instead.  The one forecaster of the mapping has [enforce_index_type]
    at [None], as the forecasters of the framework and the class's own
    [_tags] do; the tag is in [true_if_all_tags], and the compositor gets
    it as [True] although it is true for no forecaster. *)
Lemma enforce_index_type_true_over_none :
  exists (h : list (forecaster (C := Toy.toy))) s,
    __init__ (C := Toy.toy) Toy.only_smooth None PyNone Toy.store0 = (h, inr s) /\
    "enforce_index_type" ∈ true_if_all_literal.*1 /\
    forecasters s !! "smooth" = Some (PyForecaster 0) /\
    h !! 0 = Some (Toy.unfitted Toy.naive) /\
    get_tags (Collaborators := Toy.toy) Toy.naive !! "enforce_index_type"
      = Some TNone /\
    tags s !! "enforce_index_type" = Some (TBool true).
Proof.
  exists constructed_smooth.1, constructed_smooth.2.
  split; [apply constructed_inr; vm_compute; reflexivity|].
  split; [apply (bool_decide_unpack _); vm_compute; exact I|].
  repeat apply conj; vm_compute; reflexivity.
Qed.

Lemma all_required_flag_witness :
  exists (h : list (forecaster (C := Toy.toy))) s,
    __init__ (C := Toy.toy) Toy.only_smooth None PyNone Toy.store0 = (h, inr s) /\
    exists b,
      tags s !! "handles-missing-data" = Some (TBool b) /\
      (b = true <->
       (forall k v, Toy.only_smooth !! k = Some v ->
                    keeps_tag h "handles-missing-data" v) /\
       (PyNone = PyNone \/ keeps_tag h "handles-missing-data" PyNone)).
Proof.
  exists constructed_smooth.1, constructed_smooth.2.
  split; [apply constructed_inr; vm_compute; reflexivity|].
  apply (all_required_flag (C := Toy.toy) Toy.only_smooth None PyNone Toy.store0).
  - apply constructed_inr. vm_compute. reflexivity.
  - apply (bool_decide_unpack _). vm_compute. exact I.
Defined.

(** The flags of the specification's examples: three forecasters of which
    one does not handle missing data give [False]; an empty mapping with a
    fallback that does gives [True]. *)
Example handles_missing_data_flags :
  tags (Toy.constructed
          (<[ "intermittent" := PyForecaster 1 ]> Toy.smooth_and_erratic)
          None PyNone).2 !! "handles-missing-data" = Some (TBool false) /\
  tags (Toy.constructed Toy.smooth_and_erratic None PyNone).2
    !! "handles-missing-data" = Some (TBool true) /\
  tags (Toy.constructed ∅ None (PyForecaster 0)).2
    !! "handles-missing-data" = Some (TBool true).
Proof. repeat apply conj; vm_compute; reflexivity. Qed.

Local Abbreviation constructed_two :=
  (Toy.constructed Toy.smooth_and_erratic None PyNone).

(** C7.  The claim: a flag of [true_if_any_tags] is true for the
    compositor if it is true for at least one forecaster or for the
    fallback; the comment above the dict says the same, "True if they are
    True for any of the given forecasters".  ["X-y-must-have-same-index"]
    is one of the two tags of [true_if_any_tags]; the forecaster under
    "erratic" has it [True], the one under "smooth" has it [False], and
    the compositor gets it as [False]: [set_tags] with
    [true_if_all_tags], which also names the tag, runs after the
    any-pass and overwrites what it wrote. *)
Lemma same_index_false_with_a_true_candidate :
  exists (h : list (forecaster (C := Toy.toy))) s,
    __init__ (C := Toy.toy) Toy.smooth_and_erratic None PyNone Toy.store0
      = (h, inr s) /\
    "X-y-must-have-same-index" ∈ true_if_any_literal.*1 /\
    forecasters s !! "erratic" = Some (PyForecaster 2) /\
    h !! 2 = Some (Toy.unfitted Toy.trend) /\
    get_tags (Collaborators := Toy.toy) Toy.trend !! "X-y-must-have-same-index"
      = Some (TBool true) /\
    tags s !! "X-y-must-have-same-index" = Some (TBool false).
Proof.
  exists constructed_two.1, constructed_two.2.
  split; [apply constructed_inr; vm_compute; reflexivity|].
  split; [apply (bool_decide_unpack _); vm_compute; exact I|].
  repeat apply conj; vm_compute; reflexivity.
Qed.

Lemma requires_fh_flag_any_witness :
  exists (h : list (forecaster (C := Toy.toy))) s,
    __init__ (C := Toy.toy) ∅ None (PyForecaster 1) Toy.store0 = (h, inr s) /\
    exists b,
      tags s !! "requires-fh-in-fit" = Some (TBool b) /\
      (b = true <->
       (exists k v, (∅ : gmap string pyobj) !! k = Some v /\
                    has_tag h "requires-fh-in-fit" (TBool true) v)
       \/ has_tag h "requires-fh-in-fit" (TBool true) (PyForecaster 1)).
Proof.
  exists (Toy.constructed ∅ None (PyForecaster 1)).1,
         (Toy.constructed ∅ None (PyForecaster 1)).2.
  split; [apply constructed_inr; vm_compute; reflexivity|].
  apply (requires_fh_flag_any (C := Toy.toy) ∅ None (PyForecaster 1) Toy.store0).
  apply constructed_inr. vm_compute. reflexivity.
Defined.

Example requires_fh_flags :
  tags (Toy.constructed ∅ None (PyForecaster 1)).2 !! "requires-fh-in-fit"
    = Some (TBool true) /\
  tags (Toy.constructed (<[ "intermittent" := PyForecaster 1 ]> Toy.only_smooth)
          None PyNone).2 !! "requires-fh-in-fit" = Some (TBool true) /\
  tags constructed_two.2 !! "requires-fh-in-fit" = Some (TBool false) /\
  tags (Toy.constructed ∅ None PyNone).2 !! "requires-fh-in-fit"
    = Some (TBool false).
Proof. repeat apply conj; vm_compute; reflexivity. Qed.

Lemma same_index_flag_follows_all_rule_witness :
  exists (h : list (forecaster (C := Toy.toy))) s,
    __init__ (C := Toy.toy) Toy.smooth_and_erratic None PyNone Toy.store0
      = (h, inr s) /\
    exists all_tags b,
      true_if_all_tags h Toy.smooth_and_erratic PyNone = inr all_tags /\
      true_for_all h "X-y-must-have-same-index" Toy.smooth_and_erratic PyNone
        = inr b /\
      (forall written_before,
         set_tags all_tags written_before !! "X-y-must-have-same-index"
         = Some (TBool b)) /\
      tags s !! "X-y-must-have-same-index" = Some (TBool b).
Proof.
  exists constructed_two.1, constructed_two.2.
  split; [apply constructed_inr; vm_compute; reflexivity|].
  apply (same_index_flag_follows_all_rule (C := Toy.toy)
           Toy.smooth_and_erratic None PyNone Toy.store0).
  apply constructed_inr. vm_compute. reflexivity.
Defined.

Lemma init_checks_forecasters_witness :
  __init__ (C := Toy.toy) Toy.with_a_string None PyNone Toy.store0
    = (Toy.store0, inl AssertionError)
  /\ assert_forecasters (map_to_list Toy.smooth_and_erratic).*2 = inr tt.
Proof.
  split.
  - destruct (init_checks_forecasters (C := Toy.toy)
                Toy.with_a_string None PyNone Toy.store0) as [Hfail _].
    rewrite Hfail.
    + vm_compute. reflexivity.
    + exists "lumpy", (PyOther "not a forecaster").
      split; vm_compute; reflexivity.
  - apply (init_checks_forecasters (C := Toy.toy)
             Toy.smooth_and_erratic None PyNone Toy.store0).
    intros k v Hk. apply elem_of_map_to_list in Hk.
    vm_compute in Hk.
    apply elem_of_cons in Hk as [[= _ ->]|Hk]; [reflexivity|].
    apply elem_of_cons in Hk as [[= _ ->]|Hk]; [reflexivity|].
    by apply elem_of_nil in Hk.
Defined.

Local Abbreviation new_entries :=
  [ ("fallback_forecaster", PyForecaster 1);
    ("erratic", PyForecaster 2);
    ("fallback_forecaster", PyForecaster 2) ].

Lemma forecasters_property_reserves_fallback_key_witness :
  let s := constructed_smooth.2 in
  _forecasters s
    = map_to_list (forecasters s)
        ++ [("fallback_forecaster", fallback_forecaster s)]
  /\ (fallback_forecaster s = PyNone ->
      last (_forecasters s) = Some ("fallback_forecaster", PyNone))
  /\ (forall key, key <> "fallback_forecaster" ->
        forecasters (_forecasters_setter new_entries s) !! key
        = last_assigned key new_entries (forecasters s !! key))
  /\ Some (fallback_forecaster (_forecasters_setter new_entries s))
      = last_assigned "fallback_forecaster" new_entries
          (Some (fallback_forecaster s))
  /\ forecasters (_forecasters_setter new_entries s) !! "fallback_forecaster"
      = forecasters s !! "fallback_forecaster".
Proof.
  exact (forecasters_property_reserves_fallback_key (C := Toy.toy)
           constructed_smooth.2 new_entries).
Defined.

(** The property and its setter on a compositor with one forecaster and
    no fallback. *)
Example forecasters_property_run :
  let s := constructed_smooth.2 in
  let s' := _forecasters_setter new_entries s in
  _forecasters s = [("smooth", PyForecaster 0); ("fallback_forecaster", PyNone)] /\
  fallback_forecaster s' = PyForecaster 2 /\
  forecasters s' !! "erratic" = Some (PyForecaster 2) /\
  forecasters s' !! "smooth" = Some (PyForecaster 0) /\
  forecasters s' !! "fallback_forecaster" = None.
Proof. cbv zeta. repeat apply conj; vm_compute; reflexivity. Qed.

Local Abbreviation fitted_croston :=
  (Toy.fitted_on Toy.intermittent_series
     ((Toy.constructed ∅ None (PyForecaster 1)).1,
      (Toy.constructed ∅ None (PyForecaster 1)).2)).

(** C4.  The claim: when the aggregated [capability:pred_int] is true,
    calling [predict_interval] in the fitted state forwards to the chosen
    forecaster and returns its result.  The code does not do this.  On a
    compositor whose one forecaster supports prediction intervals, fitted
    on a smooth series, the tag is [True] and the three functions are
    attached; the function [_predict_interval] applied to the compositor
    would return the intervals of the chosen forecaster, (4, 6) at each
    step; but the call through the attribute reaches it without [self]
    and raises [TypeError], and so do [predict_var] and [predict_proba]. *)
Lemma attached_functions_are_called_without_self :
  exists (h : list (forecaster (C := Toy.toy))) s h1 s1,
    __init__ (C := Toy.toy) Toy.only_smooth None PyNone Toy.store0 = (h, inr s) /\
    _fit (C := Toy.toy) Toy.smooth_series None None (h, s) = ((h1, s1), inr tt) /\
    tags s1 !! "capability:pred_int" = Some (TBool true) /\
    _predict_interval_attached s1 = true /\
    _predict_var_attached s1 = true /\
    _predict_proba_attached s1 = true /\
    (_predict_interval (C := Toy.toy) (Some [1; 2]) None [1%Z] (h1, s1)).2
      = inr [(4, 6)%Z; (4, 6)%Z] /\
    (public_predict_interval (C := Toy.toy) (Some [1; 2]) None [1%Z] (h1, s1)).2
      = inl (TypeError "missing 1 required positional argument: 'self'") /\
    (public_predict_var (C := Toy.toy) (Some [1; 2]) None false (h1, s1)).2
      = inl (TypeError "missing 1 required positional argument: 'self'") /\
    (public_predict_proba (C := Toy.toy) (Some [1; 2]) None true (h1, s1)).2
      = inl (TypeError "missing 1 required positional argument: 'self'").
Proof.
  exists constructed_smooth.1, constructed_smooth.2,
         fitted_smooth.1, fitted_smooth.2.
  split; [apply constructed_inr; vm_compute; reflexivity|].
  split; [apply fitted_on_inr; vm_compute; reflexivity|].
  repeat apply conj; vm_compute; reflexivity.
Qed.

Lemma probabilistic_entry_points_at_work :
  exists (h : list (forecaster (C := Toy.toy))) s h1 s1,
    __init__ (C := Toy.toy) Toy.only_smooth None PyNone Toy.store0 = (h, inr s) /\
    _fit (C := Toy.toy) Toy.smooth_series None None (h, s) = ((h1, s1), inr tt) /\
    exists b,
      tags s1 !! "capability:pred_int" = Some (TBool b) /\
      _predict_interval_attached s1 = b /\
      _predict_var_attached s1 = b /\
      _predict_proba_attached s1 = b /\
      (b = false ->
       public_predict_interval (C := Toy.toy) (Some [1; 2]) None [1%Z] (h1, s1)
         = ((h1, s1), inl UnsupportedOperation) /\
       public_predict_var (C := Toy.toy) (Some [1; 2]) None false (h1, s1)
         = ((h1, s1), inl UnsupportedOperation) /\
       public_predict_proba (C := Toy.toy) (Some [1; 2]) None true (h1, s1)
         = ((h1, s1), inl UnsupportedOperation)) /\
      (b = true ->
       forall c,
         chosen_forecaster_ s1 = Some c ->
         public_predict_interval (C := Toy.toy) (Some [1; 2]) None [1%Z] (h1, s1)
           = ((h1, s1), inl missing_self) /\
         public_predict_var (C := Toy.toy) (Some [1; 2]) None false (h1, s1)
           = ((h1, s1), inl missing_self) /\
         public_predict_proba (C := Toy.toy) (Some [1; 2]) None true (h1, s1)
           = ((h1, s1), inl missing_self)).
Proof.
  exists constructed_smooth.1, constructed_smooth.2,
         fitted_smooth.1, fitted_smooth.2.
  split; [apply constructed_inr; vm_compute; reflexivity|].
  split; [apply fitted_on_inr; vm_compute; reflexivity|].
  apply (probabilistic_entry_points (C := Toy.toy)).
  apply fitted_on_reachable, constructed_reachable.
  vm_compute. reflexivity.
Defined.

(** The other case: with an empty mapping and a fallback without
    prediction intervals the tag is [False], nothing is attached,
    [predict_interval] raises [UnsupportedOperation], and [_predict]
    still forecasts. *)
Example probabilistic_methods_run :
  tags fitted_croston.2 !! "capability:pred_int" = Some (TBool false) /\
  _predict_interval_attached fitted_croston.2 = false /\
  category_ fitted_croston.2 = Some "intermittent" /\
  (public_predict_interval (C := Toy.toy) (Some [1; 2]) None [1%Z]
     (fitted_croston.1, fitted_croston.2)).2
    = inl UnsupportedOperation /\
  (_predict (C := Toy.toy) (Some [1; 2]) None
     (fitted_croston.1, fitted_croston.2)).2
    = inr [0; 0]%Z.
Proof. repeat apply conj; vm_compute; reflexivity. Qed.

(** ** Further properties of the methods *)

Section Further.
Context {C : Collaborators}.

(** *** The three ways through [_fit] once a label has been read *)

Lemma _fit_key_run y X fh h s t' df label r o :
  fit_transform (transformer_ s) y X = inr (t', df) ->
  iloc_0_0 df = inr label ->
  is_Some (forecasters s !! label) ->
  forecasters_ s !! label = Some r ->
  h !! r = Some o ->
  _fit y X fh (h, s) =
    let s' :=
      set_chosen_forecaster_ (length h)
        (set_category_ label (set_transformer_ t' s)) in
    match fit (params o) y X fh with
    | inr st => ((h ++ [{| params := params o; fitted := Some st |}], s'), inr tt)
    | inl e => ((h ++ [clone o], s'), inl e)
    end.
Proof.
  intros Hft Hloc Hk Hr Ho.
  rewrite (_fit_unfold y X fh h s t' df label Hft Hloc). cbv zeta.
  rewrite bool_decide_eq_true_2 by done. simpl.
  unfold dict_item. rewrite Hr.
  rewrite <- (clone_fit_run (py_clone (PyForecaster r)) h o _ y X fh).
  - reflexivity.
  - by apply py_clone_run.
Qed.

Lemma _fit_key_error y X fh h s t' df label :
  fit_transform (transformer_ s) y X = inr (t', df) ->
  iloc_0_0 df = inr label ->
  is_Some (forecasters s !! label) ->
  forecasters_ s !! label = None ->
  _fit y X fh (h, s) =
    ((h, set_category_ label (set_transformer_ t' s)), inl (KeyError label)).
Proof.
  intros Hft Hloc Hk Hr.
  rewrite (_fit_unfold y X fh h s t' df label Hft Hloc). cbv zeta.
  rewrite bool_decide_eq_true_2 by done. simpl.
  unfold dict_item. by rewrite Hr.
Qed.

Lemma _fit_fallback_run y X fh h s t' df label p o :
  fit_transform (transformer_ s) y X = inr (t', df) ->
  iloc_0_0 df = inr label ->
  forecasters s !! label = None ->
  fallback_forecaster s = PyForecaster p ->
  h !! p = Some o ->
  _fit y X fh (h, s) =
    let s' :=
      set_chosen_forecaster_ (length h)
        (set_category_ label (set_transformer_ t' s)) in
    match fit (params o) y X fh with
    | inr st => ((h ++ [{| params := params o; fitted := Some st |}], s'), inr tt)
    | inl e => ((h ++ [clone o], s'), inl e)
    end.
Proof.
  intros Hft Hloc Hk Hfb Ho.
  rewrite (_fit_unfold y X fh h s t' df label Hft Hloc). cbv zeta.
  rewrite Hk. rewrite bool_decide_eq_false_2 by (intros [? [=]]). simpl.
  rewrite Hfb. simpl.
  apply clone_fit_run. by apply py_clone_run.
Qed.

(** On a reachable compositor the label selects a forecaster of the
    store, and [_fit] runs as on that one. *)
Lemma _fit_selected_run y X fh h s t' df label :
  reachable (h, s) ->
  fit_transform (transformer_ s) y X = inr (t', df) ->
  iloc_0_0 df = inr label ->
  is_Some (forecasters s !! label) \/ fallback_forecaster s <> PyNone ->
  exists p proto,
    registered_for s label = PyForecaster p /\
    h !! p = Some proto /\
    _fit y X fh (h, s) =
      let s' :=
        set_chosen_forecaster_ (length h)
          (set_category_ label (set_transformer_ t' s)) in
      match fit (params proto) y X fh with
      | inr st =>
          ((h ++ [{| params := params proto; fitted := Some st |}], s'), inr tt)
      | inl e => ((h ++ [clone proto], s'), inl e)
      end.
Proof.
  intros Hreach Hft Hloc Hsel.
  apply reachable_consistent in Hreach as [Hfs Hfb]. simpl in Hfs, Hfb.
  unfold registered_for.
  destruct (forecasters s !! label) as [v|] eqn:Hk.
  - destruct (Hfs label v Hk) as (p & o & r & o' & -> & Hp & Hr & Ho' & Hpar).
    exists p, o. split_and!; [done..|].
    rewrite (_fit_key_run y X fh h s t' df label r o' Hft Hloc); [|by rewrite Hk|done..].
    cbv zeta. unfold clone. by rewrite Hpar.
  - destruct Hsel as [[? [=]]|Hne].
    destruct Hfb as [?|(p & o & Hv & Hp)]; [done|].
    exists p, o. split_and!; [done..|].
    by apply (_fit_fallback_run y X fh h s t' df label p o).
Qed.

(** *** Calls before any fit *)

Lemma without_chosen {A} (k : nat -> M World A) h s :
  chosen_forecaster_ s = None ->
  bind get_chosen_forecaster_ k (h, s)
  = ((h, s), inl (AttributeError "chosen_forecaster_")).
Proof.
  intros Hc. unfold bind, get_chosen_forecaster_, bind, get_self. simpl.
  by rewrite Hc.
Qed.

(** On a compositor fresh from [__init__], [_predict], [_update] and the
    three probabilistic functions raise [AttributeError] for
    [chosen_forecaster_], which only [_fit] assigns, and change nothing. *)
Theorem calls_before_fit_raise fs t fb h h' s y fh X update_params coverage cov
    marginal :
  __init__ fs t fb h = (h', inr s) ->
  _predict fh X (h', s)
    = ((h', s), inl (AttributeError "chosen_forecaster_")) /\
  _update y X update_params (h', s)
    = ((h', s), inl (AttributeError "chosen_forecaster_")) /\
  _predict_interval fh X coverage (h', s)
    = ((h', s), inl (AttributeError "chosen_forecaster_")) /\
  _predict_var fh X cov (h', s)
    = ((h', s), inl (AttributeError "chosen_forecaster_")) /\
  _predict_proba fh X marginal (h', s)
    = ((h', s), inl (AttributeError "chosen_forecaster_")).
Proof.
  intros Hinit. apply init_attributes in Hinit as (_ & _ & _ & Hc & _).
  repeat apply conj; by apply without_chosen.
Qed.

(** *** Failures of the classification in [_fit] *)

Lemma _fit_transformer_error y X fh h s e :
  fit_transform (transformer_ s) y X = inl e ->
  _fit y X fh (h, s) = ((h, s), inl e).
Proof.
  intros Hft. unfold _fit, transformer__fit_transform.
  unfold bind at 1. unfold bind at 1. unfold bind at 1. unfold get_self at 1.
  unfold bind at 1. unfold lift at 1. simpl. by rewrite Hft.
Qed.

Lemma _fit_iloc_error y X fh h s t' df e :
  fit_transform (transformer_ s) y X = inr (t', df) ->
  iloc_0_0 df = inl e ->
  _fit y X fh (h, s) = ((h, set_transformer_ t' s), inl e).
Proof.
  intros Hft Hloc. unfold _fit, transformer__fit_transform.
  unfold bind at 1. unfold bind at 1. unfold bind at 1. unfold get_self at 1.
  unfold bind at 1. unfold lift at 1. simpl. rewrite Hft. simpl.
  unfold bind at 1. unfold lift at 1. by rewrite Hloc.
Qed.

(** An exception of the transformer's [fit_transform] leaves [_fit] as it
    is, before anything has been written. *)
Theorem fit_propagates_transformer_error y X fh h s e :
  fit_transform (transformer_ s) y X = inl e ->
  _fit y X fh (h, s) = ((h, s), inl e).
Proof. apply _fit_transformer_error. Qed.

(** When the transformer returns a table without rows, or whose first
    row has no column, [_fit] raises [IndexError]: the transformer has
    been fitted on the series, [category_] and [chosen_forecaster_] are
    not written and no object is created. *)
Theorem fit_on_empty_table y X fh h s t' df :
  fit_transform (transformer_ s) y X = inr (t', df) ->
  df = [] \/ (exists rest, df = [] :: rest) ->
  _fit y X fh (h, s) = ((h, set_transformer_ t' s), inl IndexError).
Proof.
  intros Hft Hdf. apply (_fit_iloc_error y X fh h s t' df); [done|].
  destruct Hdf as [->|[rest ->]]; reflexivity.
Qed.

(** *** A session: fit, update, predict *)

Lemma predict_chosen fh X h s c o st :
  chosen_forecaster_ s = Some c ->
  h !! c = Some o ->
  fitted o = Some st ->
  _predict fh X (h, s) = ((h, s), predict (params o) st fh X).
Proof.
  intros Hc Ho Hst.
  exact (query_chosen (fun p st => predict p st fh X) h s c o st Hc Ho Hst).
Qed.

(** After a [_fit] that returned, [_predict] gives what the forecaster
    registered for the label (the fallback, for a label that is not a
    key) predicts once fitted on the arguments of [_fit], and changes
    nothing, so that asking again gives the same. *)
Theorem predict_after_fit h s y X fh t' df label fh' X' :
  reachable (h, s) ->
  fit_transform (transformer_ s) y X = inr (t', df) ->
  iloc_0_0 df = inr label ->
  is_Some (forecasters s !! label) \/ fallback_forecaster s <> PyNone ->
  exists p proto,
    registered_for s label = PyForecaster p /\
    h !! p = Some proto /\
    forall st,
      fit (params proto) y X fh = inr st ->
      let w1 := (_fit y X fh (h, s)).1 in
      (_fit y X fh (h, s)).2 = inr tt /\
      _predict fh' X' w1 = (w1, predict (params proto) st fh' X') /\
      _predict fh' X' (_predict fh' X' w1).1
        = (w1, predict (params proto) st fh' X').
Proof.
  intros Hreach Hft Hloc Hsel.
  destruct (_fit_selected_run y X fh h s t' df label Hreach Hft Hloc Hsel)
    as (p & proto & Hreg & Hp & Hrun).
  exists p, proto. split_and!; [done..|].
  intros st Hst. rewrite Hrun. cbv zeta. rewrite Hst. cbn [fst snd].
  assert (Hpred :
    _predict fh' X'
      (h ++ [{| params := params proto; fitted := Some st |}],
       set_chosen_forecaster_ (length h)
         (set_category_ label (set_transformer_ t' s)))
    = ((h ++ [{| params := params proto; fitted := Some st |}],
        set_chosen_forecaster_ (length h)
          (set_category_ label (set_transformer_ t' s))),
       predict (params proto) st fh' X')).
  { apply (predict_chosen fh' X' _ _ (length h)
             {| params := params proto; fitted := Some st |} st);
      [reflexivity| |reflexivity].
    rewrite lookup_app_r by done. by rewrite Nat.sub_diag. }
  split_and!; [done|exact Hpred|]. rewrite Hpred. exact Hpred.
Qed.

(** A fit, then an update, then a prediction: the update reaches the
    forecaster chosen by the fit and leaves the category alone, and the
    prediction is that of the registered forecaster fitted on the first
    series and updated with the second. *)
Theorem predict_after_fit_and_update h s y X fh t' df label y2 X2 update_params
    fh' X' :
  reachable (h, s) ->
  fit_transform (transformer_ s) y X = inr (t', df) ->
  iloc_0_0 df = inr label ->
  is_Some (forecasters s !! label) \/ fallback_forecaster s <> PyNone ->
  exists p proto,
    registered_for s label = PyForecaster p /\
    h !! p = Some proto /\
    forall st st2,
      fit (params proto) y X fh = inr st ->
      update (params proto) st y2 X2 update_params = inr st2 ->
      let w1 := (_fit y X fh (h, s)).1 in
      let w2 := (_update y2 X2 update_params w1).1 in
      (_update y2 X2 update_params w1).2 = inr tt /\
      category_ w2.2 = Some label /\
      chosen_forecaster_ w2.2 = Some (length h) /\
      w2.1 = h ++ [{| params := params proto; fitted := Some st2 |}] /\
      _predict fh' X' w2 = (w2, predict (params proto) st2 fh' X').
Proof.
  intros Hreach Hft Hloc Hsel.
  destruct (_fit_selected_run y X fh h s t' df label Hreach Hft Hloc Hsel)
    as (p & proto & Hreg & Hp & Hrun).
  exists p, proto. split_and!; [done..|].
  intros st st2 Hst Hst2. rewrite Hrun. cbv zeta. rewrite Hst. cbn [fst snd].
  rewrite (update_forwards y2 X2 update_params _ _ (length h)
             {| params := params proto; fitted := Some st |} st);
    [|reflexivity| |reflexivity].
  2: { rewrite lookup_app_r by done. by rewrite Nat.sub_diag. }
  cbn [params]. rewrite Hst2. cbn [fst snd].
  rewrite insert_app_r_alt by done. rewrite Nat.sub_diag. cbn [insert list_insert].
  split_and!; try reflexivity.
  apply (predict_chosen fh' X' _ _ (length h)
           {| params := params proto; fitted := Some st2 |} st2);
    [reflexivity| |reflexivity].
  rewrite lookup_app_r by done. by rewrite Nat.sub_diag.
Qed.

(** *** Invariants of a reachable compositor *)

Lemma Forall2_copy_elem_r h items rs kr :
  Forall2 (copy_of h) items rs -> kr ∈ rs ->
  exists kv, kv ∈ items /\ copy_of h kv kr.
Proof.
  induction 1 as [|kv kr' l1 l2 Hc _ IH]; intros Hin.
  - by apply elem_of_nil in Hin.
  - apply elem_of_cons in Hin as [->|Hin].
    + exists kv. split; [left|done].
    + destruct (IH Hin) as (kv' & Hin' & Hc'). exists kv'. split; [by right|done].
Qed.

Lemma init_copies_have_prototypes fs t fb h h' s k :
  __init__ fs t fb h = (h', inr s) ->
  is_Some (forecasters_ s !! k) -> is_Some (forecasters s !! k).
Proof.
  intros Hrun [r Hr]. apply init_inr in Hrun
    as (coerced & clones & all_tags & tags1 & pred_int
        & _ & _ & Hcl & _ & _ & _ & ->).
  simpl in *. apply clone_items_inr in Hcl as [Hcopies _].
  apply elem_of_list_to_map_2 in Hr.
  destruct (Forall2_copy_elem_r _ _ _ _ Hcopies Hr) as ([k' v] & Hin & Hk & _).
  simpl in Hk. subst k'. apply elem_of_map_to_list in Hin. eauto.
Qed.

Lemma reachable_copies_have_prototypes h s k :
  reachable (h, s) ->
  is_Some (forecasters_ s !! k) -> is_Some (forecasters s !! k).
Proof.
  intros Hreach Hk.
  destruct (reachable_configuration (h, s) Hreach)
    as (fs & t & fb & h0 & h0' & s0 & Hinit & Hconf).
  injection Hconf as Hf Hf_ _ _ _ _ _. simpl in Hf, Hf_.
  rewrite Hf. apply (init_copies_have_prototypes fs t fb h0 h0' s0 k Hinit).
  by rewrite <- Hf_.
Qed.

(** On every reachable compositor [forecasters_] has the keys of
    [forecasters]; under each key [forecasters] holds a forecaster of the
    store and [forecasters_] another object with the same
    hyper-parameters; and the fallback is [None] or a forecaster of the
    store.  So [self.forecasters_[self.category_]] in [_fit] finds its
    key. *)
Theorem copies_match_prototypes h s :
  reachable (h, s) ->
  (forall k, is_Some (forecasters_ s !! k) <-> is_Some (forecasters s !! k)) /\
  (forall k v, forecasters s !! k = Some v ->
     exists p o r o',
       v = PyForecaster p /\ h !! p = Some o /\
       forecasters_ s !! k = Some r /\ h !! r = Some o' /\
       params o' = params o) /\
  (fallback_forecaster s = PyNone \/ is_forecaster h (fallback_forecaster s)).
Proof.
  intros Hreach.
  pose proof (reachable_consistent (h, s) Hreach) as [Hfs Hfb].
  simpl in Hfs, Hfb. split_and!; [|done..].
  intros k. split.
  - by apply (reachable_copies_have_prototypes h).
  - intros [v Hv].
    destruct (Hfs k v Hv) as (p & o & r & o' & _ & _ & Hr & _). eauto.
Qed.

Lemma store_le_length (h h' : list forecaster) :
  store_le h h' -> length h <= length h'.
Proof.
  intros Hle. destruct (decide (length h <= length h')) as [|Hn]; [done|].
  assert (Hlt : length h' < length h) by lia.
  apply lookup_lt_is_Some in Hlt as [o Ho].
  destruct (Hle _ _ Ho) as (o' & Ho' & _).
  apply lookup_lt_Some in Ho'. lia.
Qed.

Lemma reachable_configured_valid h s r :
  reachable (h, s) -> configured s r -> r < length h.
Proof.
  intros Hreach Hconf.
  pose proof (reachable_consistent (h, s) Hreach) as [Hfs Hfb].
  simpl in Hfs, Hfb.
  destruct Hconf as [[k Hk]|[[k Hk]|Hk]].
  - destruct (Hfs k _ Hk) as (p & o & _ & _ & [= <-] & Hp & _).
    by eapply lookup_lt_Some.
  - destruct (reachable_copies_have_prototypes h s k Hreach) as [v Hv]; [eauto|].
    destruct (Hfs k v Hv) as (p & o & r' & o' & _ & _ & Hr & Ho' & _).
    rewrite Hk in Hr. injection Hr as <-. by eapply lookup_lt_Some.
  - destruct Hfb as [Hnone|(p & o & Hv & Hp)]; [congruence|].
    rewrite Hk in Hv. injection Hv as <-. by eapply lookup_lt_Some.
Qed.

Lemma _update_keeps_self y X update_params h s :
  (_update y X update_params (h, s)).1.2 = s.
Proof.
  unfold _update, get_chosen_forecaster_, bind, get_self, ret, raise,
    on_store, forecaster_update, bind, get, lift, modify, deref. simpl.
  destruct (chosen_forecaster_ s) as [c|]; simpl; [|done].
  destruct (h !! c) as [o|]; simpl; [|done].
  destruct (fitted o) as [st|]; simpl; [|done].
  by destruct (update (params o) st y X update_params).
Qed.

Lemma _fit_chosen_cases y X fh h s :
  chosen_forecaster_ (_fit y X fh (h, s)).1.2 = chosen_forecaster_ s \/
  (chosen_forecaster_ (_fit y X fh (h, s)).1.2 = Some (length h) /\
   length h < length (_fit y X fh (h, s)).1.1).
Proof.
  destruct (fit_transform (transformer_ s) y X) as [e|[t' df]] eqn:Hft.
  { rewrite (_fit_transformer_error y X fh h s e Hft). by left. }
  destruct (iloc_0_0 df) as [e|label] eqn:Hloc.
  { rewrite (_fit_iloc_error y X fh h s t' df e Hft Hloc). by left. }
  destruct (forecasters s !! label) as [v|] eqn:Hk.
  - destruct (forecasters_ s !! label) as [r|] eqn:Hr.
    + destruct (h !! r) as [o|] eqn:Ho.
      * rewrite (_fit_key_run y X fh h s t' df label r o Hft Hloc);
          [|by rewrite Hk|done..].
        cbv zeta. right.
        destruct (fit (params o) y X fh); simpl;
          (split; [done|rewrite length_app; simpl; lia]).
      * left. rewrite (_fit_unfold y X fh h s t' df label Hft Hloc). cbv zeta.
        rewrite Hk. rewrite bool_decide_eq_true_2 by eauto. simpl.
        unfold dict_item. rewrite Hr.
        unfold bind, lift, on_store, py_clone, bind, get, lift, the_forecaster,
          deref. simpl. by rewrite Ho.
    + left. rewrite (_fit_key_error y X fh h s t' df label Hft Hloc);
        [done|by rewrite Hk|done].
  - destruct (fallback_forecaster s) as [|p|repr] eqn:Hfb.
    + left. by rewrite (_fit_no_forecaster h s y X fh t' df label Hft Hloc Hk Hfb).
    + destruct (h !! p) as [o|] eqn:Ho.
      * rewrite (_fit_fallback_run y X fh h s t' df label p o Hft Hloc Hk Hfb Ho).
        cbv zeta. right.
        destruct (fit (params o) y X fh); simpl;
          (split; [done|rewrite length_app; simpl; lia]).
      * left. rewrite (_fit_unfold y X fh h s t' df label Hft Hloc). cbv zeta.
        rewrite Hk, Hfb. rewrite bool_decide_eq_false_2 by (intros [? [=]]).
        unfold bind, lift, on_store, py_clone, bind, get, lift, the_forecaster,
          deref. simpl. by rewrite Ho.
    + left. rewrite (_fit_unfold y X fh h s t' df label Hft Hloc). cbv zeta.
      rewrite Hk, Hfb. rewrite bool_decide_eq_false_2 by (intros [? [=]]).
      reflexivity.
Qed.

Lemma configured_frame (w w' : World) r :
  configuration w'.2 = configuration w.2 -> configured w'.2 r -> configured w.2 r.
Proof.
  intros Hconf. injection Hconf as Hf Hf_ Hb _ _ _ _.
  unfold configured. by rewrite Hf, Hf_, Hb.
Qed.

(** The chosen forecaster belongs to the compositor alone: on every
    reachable compositor the references held in [forecasters],
    [forecasters_] and [fallback_forecaster] point into the store, and
    [chosen_forecaster_], once set, is an object of the store that is
    none of them.  Fitting or updating the chosen forecaster therefore
    never touches a prototype or a copy kept at construction. *)
Theorem chosen_forecaster_is_owned w : reachable w -> owns_chosen w.
Proof.
  intros Hreach. split.
  { intros r. destruct w as [h s]. by apply reachable_configured_valid. }
  induction Hreach
    as [fs t fb h h' s Hinit|w y X fh Hreach IH|w y X up Hreach IH
       |h h' s Hreach IH Hle].
  - intros c Hc. apply init_attributes in Hinit as (_ & _ & _ & Hnone & _).
    simpl in Hc. congruence.
  - destruct w as [h s].
    destruct (preserves__fit y X fh (h, s)) as [Hle Hconf].
    apply store_le_length in Hle. simpl in Hle.
    intros c Hc.
    destruct (_fit_chosen_cases y X fh h s) as [Hsame|[Hnew Hlen]].
    + rewrite Hsame in Hc. destruct (IH c Hc) as [Hlt Hnot].
      split; [simpl in Hlt; lia|].
      intros Hcf. apply Hnot. by eapply configured_frame.
    + rewrite Hnew in Hc. injection Hc as <-. split; [done|].
      intros Hcf. apply (configured_frame (h, s)) in Hcf; [|done].
      apply (reachable_configured_valid h s _ Hreach) in Hcf. lia.
  - destruct w as [h s].
    destruct (preserves__update y X up (h, s)) as [Hle Hconf].
    apply store_le_length in Hle. simpl in Hle.
    intros c Hc. rewrite _update_keeps_self in Hc.
    destruct (IH c Hc) as [Hlt Hnot]. split; [simpl in Hlt; lia|].
    by rewrite _update_keeps_self.
  - intros c Hc. destruct (IH c Hc) as [Hlt Hnot].
    apply store_le_length in Hle. split; [simpl in *; lia|done].
Qed.

Lemma copies_or_not h s label :
  reachable (h, s) ->
  (forecasters s !! label = None /\ forecasters_ s !! label = None) \/
  (exists v p o r o',
     forecasters s !! label = Some v /\ v = PyForecaster p /\
     h !! p = Some o /\ forecasters_ s !! label = Some r /\
     h !! r = Some o' /\ params o' = params o).
Proof.
  intros Hreach.
  pose proof (reachable_consistent (h, s) Hreach) as [Hfs _]. simpl in Hfs.
  destruct (forecasters s !! label) as [v|] eqn:Hk.
  - right. destruct (Hfs label v Hk) as (p & o & r & o' & H).
    exists v, p, o, r, o'. tauto.
  - left. split; [done|].
    destruct (forecasters_ s !! label) as [r|] eqn:Hr; [|done].
    destruct (reachable_copies_have_prototypes h s label Hreach) as [v Hv];
      [eauto|congruence].
Qed.

Lemma registered_is_forecaster h s label :
  reachable (h, s) ->
  is_Some (forecasters s !! label) \/ fallback_forecaster s <> PyNone ->
  exists p proto, registered_for s label = PyForecaster p /\ h !! p = Some proto.
Proof.
  intros Hreach Hsel.
  pose proof (reachable_consistent (h, s) Hreach) as [Hfs Hfb].
  simpl in Hfs, Hfb. unfold registered_for.
  destruct (forecasters s !! label) as [v|] eqn:Hk.
  - destruct (Hfs label v Hk) as (p & o & _ & _ & -> & Hp & _). eauto.
  - destruct Hsel as [[? [=]]|Hne].
    destruct Hfb as [?|(p & o & Hv & Hp)]; [done|]. eauto.
Qed.

(** Fitting again chooses anew.  After two calls of [_fit] that return,
    the category is the second label and the chosen forecaster is a
    second new object, fitted on the second series; the object chosen by
    the first call stays in the store as the first call left it.  The
    transformer is the same object in both calls: the second call fits
    it from the state the first call left. *)
Theorem refit_chooses_a_new_forecaster h s y1 X1 fh1 t1 df1 label1
    y2 X2 fh2 t2 df2 label2 :
  reachable (h, s) ->
  fit_transform (transformer_ s) y1 X1 = inr (t1, df1) ->
  iloc_0_0 df1 = inr label1 ->
  is_Some (forecasters s !! label1) \/ fallback_forecaster s <> PyNone ->
  fit_transform t1 y2 X2 = inr (t2, df2) ->
  iloc_0_0 df2 = inr label2 ->
  is_Some (forecasters s !! label2) \/ fallback_forecaster s <> PyNone ->
  exists p1 proto1 p2 proto2,
    registered_for s label1 = PyForecaster p1 /\ h !! p1 = Some proto1 /\
    registered_for s label2 = PyForecaster p2 /\ h !! p2 = Some proto2 /\
    forall st1 st2,
      fit (params proto1) y1 X1 fh1 = inr st1 ->
      fit (params proto2) y2 X2 fh2 = inr st2 ->
      let w1 := (_fit y1 X1 fh1 (h, s)).1 in
      let w2 := (_fit y2 X2 fh2 w1).1 in
      (_fit y2 X2 fh2 w1).2 = inr tt /\
      category_ w2.2 = Some label2 /\
      transformer_ w2.2 = t2 /\
      chosen_forecaster_ w1.2 = Some (length h) /\
      chosen_forecaster_ w2.2 = Some (S (length h)) /\
      w2.1 = h ++ [ {| params := params proto1; fitted := Some st1 |};
                    {| params := params proto2; fitted := Some st2 |} ].
Proof.
  intros Hreach Hft1 Hloc1 Hsel1 Hft2 Hloc2 Hsel2.
  destruct (_fit_selected_run y1 X1 fh1 h s t1 df1 label1 Hreach Hft1 Hloc1 Hsel1)
    as (p1 & proto1 & Hreg1 & Hp1 & Hrun1).
  destruct (registered_is_forecaster h s label2 Hreach Hsel2)
    as (p2 & proto2 & Hreg2 & Hp2).
  exists p1, proto1, p2, proto2. split_and!; [done..|].
  intros st1 st2 Hst1 Hst2.
  pose proof (reach_fit (h, s) y1 X1 fh1 Hreach) as Hreach1.
  rewrite Hrun1 in Hreach1 |- *. cbv zeta in Hreach1 |- *.
  rewrite Hst1 in Hreach1 |- *. cbn [fst snd] in Hreach1 |- *.
  destruct (_fit_selected_run y2 X2 fh2 _ _ t2 df2 label2 Hreach1)
    as (p2' & proto2' & Hreg2' & Hp2' & Hrun2); [done..|].
  change (registered_for s label2 = PyForecaster p2') in Hreg2'.
  rewrite Hreg2 in Hreg2'. injection Hreg2' as <-.
  rewrite (lookup_app_l_Some _ _ _ _ Hp2) in Hp2'. injection Hp2' as <-.
  rewrite Hrun2. cbv zeta. rewrite Hst2. cbn [fst snd].
  split_and!; try reflexivity.
  - rewrite length_app. simpl. f_equal. lia.
  - by rewrite <- app_assoc.
Qed.

(** *** The setter of [_forecasters] *)

Lemma setter_app l1 : forall l2 s,
  _forecasters_setter (l1 ++ l2) s
  = _forecasters_setter l2 (_forecasters_setter l1 s).
Proof.
  induction l1 as [|[category f] rest IH]; intros l2 s; [done|].
  cbn [_forecasters_setter app]. apply IH.
Qed.

Lemma set_forecasters_same s : set_forecasters (forecasters s) s = s.
Proof. by destruct s. Qed.

Lemma set_fallback_forecaster_twice f g s :
  set_fallback_forecaster f (set_fallback_forecaster g s)
  = set_fallback_forecaster f s.
Proof. done. Qed.

Lemma set_fallback_forecaster_same s :
  set_fallback_forecaster (fallback_forecaster s) s = s.
Proof. by destruct s. Qed.

Lemma setter_of_own_items l : forall s,
  (forall k v, (k, v) ∈ l -> forecasters s !! k = Some v) ->
  exists f, _forecasters_setter l s = set_fallback_forecaster f s.
Proof.
  induction l as [|[category v] rest IH]; intros s Hown.
  - exists (fallback_forecaster s). by rewrite set_fallback_forecaster_same.
  - cbn [_forecasters_setter].
    destruct (negb (String.eqb category "fallback_forecaster")).
    + rewrite insert_id by (apply Hown; left).
      rewrite set_forecasters_same. apply IH.
      intros k v' Hin. apply Hown. by right.
    + destruct (IH (set_fallback_forecaster v s)) as [f Hf].
      { intros k v' Hin. apply Hown. by right. }
      exists f. by rewrite Hf.
Qed.

(** Handing the property [_forecasters] back to its setter changes
    nothing, whatever the keys of [forecasters] are. *)
Theorem setter_of_getter_is_identity s :
  _forecasters_setter (_forecasters s) s = s.
Proof.
  unfold _forecasters. rewrite setter_app.
  destruct (setter_of_own_items (map_to_list (forecasters s)) s) as [f ->].
  { intros k v Hin. by apply elem_of_map_to_list. }
  exact (set_fallback_forecaster_same s).
Qed.

Lemma setter_keeps_rest new : forall s,
  transformer (_forecasters_setter new s) = transformer s /\
  transformer_ (_forecasters_setter new s) = transformer_ s /\
  forecasters_ (_forecasters_setter new s) = forecasters_ s /\
  tags (_forecasters_setter new s) = tags s /\
  category_ (_forecasters_setter new s) = category_ s /\
  chosen_forecaster_ (_forecasters_setter new s) = chosen_forecaster_ s.
Proof.
  induction new as [|[category f] rest IH]; intros s; [done|].
  cbn [_forecasters_setter].
  destruct (negb (String.eqb category "fallback_forecaster"));
    destruct (IH (set_forecasters (<[category := f]> (forecasters s)) s))
      as (H1 & H2 & H3 & H4 & H5 & H6);
    destruct (IH (set_fallback_forecaster f s))
      as (G1 & G2 & G3 & G4 & G5 & G6);
    done.
Qed.

(** The setter writes [forecasters] and [fallback_forecaster] only, and
    [_fit] takes the forecaster for a key from [forecasters_].  So when
    the setter is followed by [_fit] with no construction in between: a
    label whose key the setter added raises [KeyError], and a label whose
    forecaster the setter replaced is served by a copy of the forecaster
    registered at construction. *)
Theorem fit_after_setter_uses_construction_copies h s new y X fh t' df label :
  reachable (h, s) ->
  fit_transform (transformer_ s) y X = inr (t', df) ->
  iloc_0_0 df = inr label ->
  is_Some (forecasters (_forecasters_setter new s) !! label) ->
  let s' := _forecasters_setter new s in
  forecasters_ s' = forecasters_ s /\
  match forecasters s !! label with
  | None =>
      _fit y X fh (h, s')
      = ((h, set_category_ label (set_transformer_ t' s')), inl (KeyError label))
  | Some v =>
      exists p proto,
        v = PyForecaster p /\ h !! p = Some proto /\
        _fit y X fh (h, s') =
          let s'' :=
            set_chosen_forecaster_ (length h)
              (set_category_ label (set_transformer_ t' s')) in
          match fit (params proto) y X fh with
          | inr st =>
              ((h ++ [{| params := params proto; fitted := Some st |}], s''),
               inr tt)
          | inl e => ((h ++ [clone proto], s''), inl e)
          end
  end.
Proof.
  intros Hreach Hft Hloc Hkey. cbv zeta.
  destruct (setter_keeps_rest new s) as (_ & Ht_ & Hf_ & _).
  split; [done|].
  rewrite <- Ht_ in Hft.
  destruct (copies_or_not h s label Hreach) as [(Hnone & Hnone_)|Hsome].
  - rewrite Hnone. apply (_fit_key_error y X fh h _ t' df label); try done.
    by rewrite Hf_.
  - destruct Hsome as (v & p & o & r & o' & Hv & -> & Hp & Hr & Ho' & Hpar).
    rewrite Hv. exists p, o. split_and!; [done..|].
    rewrite (_fit_key_run y X fh h _ t' df label r o' Hft Hloc Hkey);
      [|by rewrite Hf_|done].
    cbv zeta. unfold clone. by rewrite Hpar.
Qed.

(** *** What construction does to the store and to the tags *)

Lemma clone_items_store items : forall h h' rs,
  clone_items items h = (h', inr rs) ->
  exists l,
    h' = h ++ l /\ length l = length items /\
    Forall (fun o => fitted o = None) l /\
    rs.*2 = seq (length h) (length items).
Proof.
  induction items as [|[k f] rest IH]; intros h h' rs Hrun.
  - injection Hrun as <- <-. exists []. by rewrite app_nil_r.
  - simpl in Hrun.
    apply bind_inr in Hrun as (r & h1 & Hc & Hrun).
    apply bind_inr in Hrun as (rs' & h2 & Hrest & Hrun).
    injection Hrun as <- <-.
    apply py_clone_inr in Hc as (p & o & -> & Hp & -> & ->).
    apply IH in Hrest as (l & -> & Hlen & Hnone & Hrefs).
    exists (clone o :: l). split_and!.
    + by rewrite <- app_assoc.
    + simpl. by rewrite Hlen.
    + by constructor.
    + rewrite fmap_cons. simpl. f_equal. rewrite Hrefs.
      rewrite length_app. simpl. f_equal. lia.
Qed.

(** [__init__] adds to the store one unfitted copy for each entry of
    [forecasters], and nothing for the fallback; the objects that were
    there, the caller's forecasters among them, are as they were, and
    [forecasters_] refers to the new objects only. *)
Theorem init_copies_each_forecaster_once fs t fb h h' s :
  __init__ fs t fb h = (h', inr s) ->
  exists copies,
    h' = h ++ copies /\
    length copies = size fs /\
    Forall (fun o => fitted o = None) copies /\
    (forall k r, forecasters_ s !! k = Some r -> length h <= r < length h').
Proof.
  intros Hrun. apply init_inr in Hrun
    as (coerced & clones & all_tags & tags1 & pred_int
        & _ & _ & Hcl & _ & _ & _ & ->).
  apply clone_items_store in Hcl as (l & -> & Hlen & Hnone & Hrefs).
  exists l. split_and!; [done| |done|].
  - by rewrite Hlen, length_map_to_list.
  - simpl. intros k r Hr. apply elem_of_list_to_map_2 in Hr.
    assert (Hin : r ∈ clones.*2).
    { apply list_elem_of_fmap. by exists (k, r). }
    rewrite Hrefs in Hin. apply elem_of_seq in Hin.
    rewrite length_app, Hlen. lia.
Qed.

Lemma clone_items_returns items : forall h,
  Forall (fun kv => is_forecaster h kv.2) items ->
  exists h' rs l, clone_items items h = (h', inr rs) /\ h' = h ++ l.
Proof.
  induction items as [|[k f] rest IH]; intros h Hall.
  - exists h, [], []. by rewrite app_nil_r.
  - apply Forall_cons in Hall as [(p & o & Hf & Hp) Hall]. simpl in Hf. subst f.
    destruct (IH (h ++ [clone o])) as (h' & rs & l & Hrun & ->).
    { eapply Forall_impl; [exact Hall|].
      intros kv (p' & o' & Hv & Hp'). exists p', o'. split; [done|].
      by apply lookup_app_l_Some. }
    exists ((h ++ [clone o]) ++ l), ((k, length h) :: rs), ([clone o] ++ l).
    split; [|by rewrite app_assoc].
    simpl. unfold bind at 1. rewrite (py_clone_run h p o Hp).
    unfold bind at 1. by rewrite Hrun.
Qed.

Lemma true_for_all_loop_returns h tag vals :
  Forall (is_forecaster h) vals ->
  exists b, true_for_all_loop h tag vals = inr b.
Proof.
  induction vals as [|v rest IH]; intros Hall; [by exists true|].
  apply Forall_cons in Hall as [(p & o & -> & Hp) Hall].
  simpl. unfold py_get_tags, the_forecaster, deref. rewrite Hp. simpl.
  destruct (fails_tag tag (get_tags (params o))); [by exists false|by apply IH].
Qed.

(** The [assert] covers the values of [forecasters] only.  A fallback
    that is neither [None] nor a forecaster gets past it, and
    construction fails at the first [fallback_forecaster.get_tags()] with
    [AttributeError], after the copies have been made. *)
Theorem init_with_a_fallback_that_is_no_forecaster fs t repr h coerced :
  coerce_scitype (transformer_or_default t) "transformer" = inr coerced ->
  (forall k v, fs !! k = Some v -> is_forecaster h v) ->
  assert_forecasters (map_to_list fs).*2 = inr tt /\
  (__init__ fs t (PyOther repr) h).2 = inl (AttributeError "get_tags").
Proof.
  intros Hco Hfs.
  assert (Hitems : Forall (fun kv => is_forecaster h kv.2) (map_to_list fs)).
  { apply Forall_forall. intros [k v] Hin. apply elem_of_map_to_list in Hin.
    by apply (Hfs k). }
  assert (Hassert : assert_forecasters (map_to_list fs).*2 = inr tt).
  { apply assert_forecasters_inr. apply Forall_fmap.
    eapply Forall_impl; [exact Hitems|].
    intros kv (p & o & Hv & _). simpl. by rewrite Hv. }
  split; [done|].
  destruct (clone_items_returns _ h Hitems) as (h' & rs & l & Hrun & ->).
  destruct (true_for_all_loop_returns (h ++ l) "ignores-exogeneous-X"
              (map_to_list fs).*2) as [b Hb].
  { apply Forall_fmap. eapply Forall_impl; [exact Hitems|].
    intros kv (p & o & Hv & Hp). simpl. exists p, o. split; [done|].
    by apply lookup_app_l_Some. }
  unfold __init__. unfold bind at 1. unfold lift at 1. rewrite Hco.
  unfold bind at 1. unfold lift at 1. rewrite Hassert.
  unfold bind at 1. rewrite Hrun.
  unfold bind at 1. unfold get at 1.
  unfold bind at 1. unfold lift at 1.
  unfold true_if_all_tags, true_if_all_literal. rewrite fmap_cons.
  cbn [true_if_all_loop fst]. unfold true_for_all at 1. rewrite Hb.
  reflexivity.
Qed.

Lemma true_if_any_loop_other h ests names : forall self_tags self_tags' tag,
  true_if_any_loop h ests names self_tags = inr self_tags' ->
  tag ∉ names -> self_tags' !! tag = self_tags !! tag.
Proof.
  induction names as [|name rest IH]; intros self_tags self_tags' tag Hrun Hnot.
  - by injection Hrun as <-.
  - simpl in Hrun. apply bindE_inr in Hrun as (t1 & Hset & Hrun).
    apply not_elem_of_cons in Hnot as [Hne Hnot].
    rewrite (IH _ _ tag Hrun Hnot).
    unfold _anytagis_then_set in Hset.
    apply bindE_inr in Hset as (b & _ & [= <-]).
    unfold set_tags. rewrite lookup_union_r; [done|].
    by apply lookup_singleton_ne.
Qed.

(** Construction writes the seven tags of [true_if_all_tags] and the two
    of [true_if_any_tags]; every other tag of the compositor keeps the
    value the class gives it. *)
Theorem init_keeps_the_other_tags fs t fb h h' s tag :
  __init__ fs t fb h = (h', inr s) ->
  tag ∉ true_if_all_literal.*1 ->
  tag ∉ true_if_any_literal.*1 ->
  tags s !! tag = (_tags ∪ BaseForecaster_tags) !! tag.
Proof.
  intros Hrun Hall Hany. apply init_inr in Hrun
    as (coerced & clones & all_tags & tags1 & pred_int
        & _ & _ & _ & Hloop & Hanyloop & _ & ->).
  simpl. unfold set_tags.
  apply true_if_all_loop_inr in Hloop as [_ Hout].
  rewrite lookup_union_r.
  - by apply (true_if_any_loop_other _ _ _ _ _ tag Hanyloop).
  - rewrite (Hout tag Hall). by apply not_elem_of_list_to_map_1.
Qed.

(** *** When construction succeeds *)

Lemma true_for_all_returns h tag fs fb :
  (forall k v, fs !! k = Some v -> is_forecaster h v) ->
  fb = PyNone \/ is_forecaster h fb ->
  exists b, true_for_all h tag fs fb = inr b.
Proof.
  intros Hfs Hfb. unfold true_for_all.
  destruct (true_for_all_loop_returns h tag (map_to_list fs).*2) as [b ->].
  { by apply Forall_values. }
  simpl. destruct Hfb as [->|(p & o & -> & Hp)]; simpl; [by exists b|].
  unfold py_get_tags, the_forecaster, deref. rewrite Hp. simpl. eauto.
Qed.

Lemma true_if_all_loop_returns h fs fb names : forall d,
  (forall k v, fs !! k = Some v -> is_forecaster h v) ->
  fb = PyNone \/ is_forecaster h fb ->
  exists d', true_if_all_loop h fs fb names d = inr d'.
Proof.
  induction names as [|tag rest IH]; intros d Hfs Hfb; [by exists d|].
  simpl. destruct (true_for_all_returns h tag fs fb Hfs Hfb) as [b ->].
  simpl. by apply IH.
Qed.

Lemma _anytagis_returns h tag value ests :
  Forall (fun kv => is_forecaster h kv.2) ests ->
  exists b, _anytagis h tag value ests = inr b.
Proof.
  induction ests as [|[k v] rest IH]; intros Hall; [by exists false|].
  apply Forall_cons in Hall as [(p & o & Hv & Hp) Hall]. simpl in Hv. subst v.
  destruct (IH Hall) as [b Hb].
  simpl. unfold py_get_tags, the_forecaster, deref. rewrite Hp. simpl.
  rewrite Hb. simpl. eauto.
Qed.

Lemma true_if_any_loop_returns h ests names : forall self_tags,
  Forall (fun kv => is_forecaster h kv.2) ests ->
  exists self_tags', true_if_any_loop h ests names self_tags = inr self_tags'.
Proof.
  induction names as [|tag rest IH]; intros self_tags Hall; [by exists self_tags|].
  simpl. unfold _anytagis_then_set.
  destruct (_anytagis_returns h tag (TBool true) ests Hall) as [b ->].
  simpl. by apply IH.
Qed.

Lemma is_forecaster_app h l v : is_forecaster h v -> is_forecaster (h ++ l) v.
Proof.
  intros (p & o & -> & Hp). exists p, o. split; [done|].
  by apply lookup_app_l_Some.
Qed.

Lemma init_returns_value fs t fb h coerced :
  coerce_scitype (transformer_or_default t) "transformer" = inr coerced ->
  (forall k v, fs !! k = Some v -> is_forecaster h v) ->
  fb = PyNone \/ is_forecaster h fb ->
  exists h' s, __init__ fs t fb h = (h', inr s).
Proof.
  intros Hco Hfs Hfb.
  assert (Hitems : Forall (fun kv => is_forecaster h kv.2) (map_to_list fs)).
  { apply Forall_forall. intros [k v] Hin. apply elem_of_map_to_list in Hin.
    by apply (Hfs k). }
  assert (Hassert : assert_forecasters (map_to_list fs).*2 = inr tt).
  { apply assert_forecasters_inr. apply Forall_fmap.
    eapply Forall_impl; [exact Hitems|].
    intros kv (p & o & Hv & _). simpl. by rewrite Hv. }
  destruct (clone_items_returns _ h Hitems) as (h' & rs & l & Hrun & ->).
  assert (Hfs' : forall k v, fs !! k = Some v -> is_forecaster (h ++ l) v).
  { intros k v Hk. by eapply is_forecaster_app, Hfs. }
  assert (Hfb' : fb = PyNone \/ is_forecaster (h ++ l) fb).
  { destruct Hfb as [?|?]; [by left|right; by apply is_forecaster_app]. }
  destruct (true_if_all_loop_returns (h ++ l) fs fb true_if_all_literal.*1
              (list_to_map true_if_all_literal) Hfs' Hfb') as [all_tags Hall].
  destruct (true_if_any_loop_returns (h ++ l) (any_estimators fs fb)
              true_if_any_literal.*1 (_tags ∪ BaseForecaster_tags))
    as [tags1 Hany].
  { unfold any_estimators. apply Forall_app. split.
    - eapply Forall_impl; [exact Hitems|]. intros kv. apply is_forecaster_app.
    - destruct Hfb' as [->|Hv]; [constructor|].
      destruct Hv as (p & o & -> & Hp). simpl.
      constructor; [|constructor]. by exists p, o. }
  pose proof Hall as Hloop.
  apply true_if_all_loop_inr in Hloop as [Hin _].
  destruct (Hin "capability:pred_int") as (b & _ & Hlook).
  { apply (bool_decide_unpack _). by vm_compute. }
  eexists _, _.
  unfold __init__. unfold bind at 1. unfold lift at 1. rewrite Hco.
  unfold bind at 1. unfold lift at 1. rewrite Hassert.
  unfold bind at 1. rewrite Hrun.
  unfold bind at 1. unfold get at 1.
  unfold bind at 1. unfold lift at 1. fold (true_if_all_tags (h ++ l) fs fb).
  unfold true_if_all_tags at 1. rewrite Hall.
  unfold bind at 1. unfold lift at 1. rewrite Hany.
  unfold bind at 1. unfold lift at 1. unfold tag_item, set_tags.
  rewrite (lookup_union_Some_l _ _ _ _ Hlook).
  reflexivity.
Qed.

(** Construction returns a compositor whenever the transformer is
    accepted by [coerce_scitype], every value of [forecasters] is a
    forecaster and the fallback is [None] or a forecaster: the tags of the
    forecasters play no part in whether it succeeds. *)
Theorem init_returns fs t fb h coerced :
  coerce_scitype (transformer_or_default t) "transformer" = inr coerced ->
  (forall k v, fs !! k = Some v -> is_forecaster h v) ->
  fb = PyNone \/ is_forecaster h fb ->
  exists h' s, __init__ fs t fb h = (h', inr s).
Proof. apply init_returns_value. Qed.

(** With no forecasters and no fallback, construction succeeds and adds
    nothing to the store; each of the seven tags of [true_if_all_tags] is
    [True], ["requires-fh-in-fit"] is [False], and the probabilistic
    functions are attached, although no [_fit] can then find a
    forecaster. *)
Theorem init_of_empty_configuration t h coerced :
  coerce_scitype (transformer_or_default t) "transformer" = inr coerced ->
  exists s,
    __init__ ∅ t PyNone h = (h, inr s) /\
    (forall tag, tag ∈ true_if_all_literal.*1 ->
       tags s !! tag = Some (TBool true)) /\
    tags s !! "requires-fh-in-fit" = Some (TBool false) /\
    _predict_interval_attached s = true /\
    _predict_var_attached s = true /\
    _predict_proba_attached s = true /\
    forall y X fh t' df label,
      fit_transform (transformer_ s) y X = inr (t', df) ->
      iloc_0_0 df = inr label ->
      (_fit y X fh (h, s)).2
        = inl (ValueError (missing_forecaster_message label)).
Proof.
  intros Hco.
  destruct (init_returns_value ∅ t PyNone h coerced Hco) as (h' & s & Hinit).
  { intros k v Hk. by rewrite lookup_empty in Hk. }
  { by left. }
  assert (Hstore : h' = h).
  { pose proof Hinit as Hrun. apply init_inr in Hrun
      as (? & clones & ? & ? & ? & _ & _ & Hcl & _).
    rewrite map_to_list_empty in Hcl. by injection Hcl as <- _. }
  subst h'. exists s.
  assert (Hall : forall tag, tag ∈ true_if_all_literal.*1 ->
                   tags s !! tag = Some (TBool true)).
  { intros tag Htag.
    destruct (init_all_tag_value ∅ t PyNone h h s tag Hinit Htag) as (b & -> & Hb).
    do 2 f_equal. apply Hb. split; [|by left].
    intros k v Hk. by rewrite lookup_empty in Hk. }
  destruct (init_pred_int_wired ∅ t PyNone h h s Hinit) as (b & Hb & Hi & Hv & Hp).
  rewrite Hall in Hb by (apply (bool_decide_unpack _); by vm_compute).
  injection Hb as <-.
  destruct (init_requires_fh ∅ t PyNone h h s Hinit) as (b & Hany & Hfh).
  unfold any_estimators in Hany. rewrite map_to_list_empty in Hany.
  simpl in Hany. injection Hany as <-.
  destruct (init_attributes ∅ t PyNone h h s Hinit) as (Hfs & Hfb & _).
  split_and!; try done.
  intros y X fh t' df label Hft Hloc.
  rewrite (_fit_no_forecaster h s y X fh t' df label Hft Hloc); [done| |done].
  rewrite Hfs. apply lookup_empty.
Qed.

End Further.

(** ** The further properties at work *)

Local Abbreviation constructed_with_fallback :=
  (Toy.constructed Toy.only_smooth None (PyForecaster 1)).
Local Abbreviation horizon := (Some [1; 2]).

Lemma calls_before_fit_raise_witness :
  exists (h : list (forecaster (C := Toy.toy))) s,
    __init__ (C := Toy.toy) Toy.only_smooth None PyNone Toy.store0 = (h, inr s) /\
    _predict (C := Toy.toy) horizon None (h, s)
      = ((h, s), inl (AttributeError "chosen_forecaster_")) /\
    _update (C := Toy.toy) Toy.smooth_series None true (h, s)
      = ((h, s), inl (AttributeError "chosen_forecaster_")) /\
    _predict_interval (C := Toy.toy) horizon None [1%Z] (h, s)
      = ((h, s), inl (AttributeError "chosen_forecaster_")) /\
    _predict_var (C := Toy.toy) horizon None false (h, s)
      = ((h, s), inl (AttributeError "chosen_forecaster_")) /\
    _predict_proba (C := Toy.toy) horizon None true (h, s)
      = ((h, s), inl (AttributeError "chosen_forecaster_")).
Proof.
  exists constructed_smooth.1, constructed_smooth.2.
  split; [apply constructed_inr; vm_compute; reflexivity|].
  apply (calls_before_fit_raise (C := Toy.toy)
           Toy.only_smooth None PyNone Toy.store0).
  apply constructed_inr. vm_compute. reflexivity.
Defined.

Lemma fit_propagates_transformer_error_witness :
  _fit (C := Strict.strict) Toy.negative_series None None
    (Strict.constructed.1, Strict.constructed.2)
  = ((Strict.constructed.1, Strict.constructed.2),
     inl (ValueError "negative value")).
Proof.
  apply (fit_propagates_transformer_error (C := Strict.strict)).
  vm_compute. reflexivity.
Defined.

Lemma fit_on_empty_table_witness :
  exists (h : list (forecaster (C := Toy.toy))) s,
    __init__ (C := Toy.toy) Toy.only_smooth None PyNone Toy.store0 = (h, inr s) /\
    _fit (C := Toy.toy) [] None None (h, s)
    = ((h, set_transformer_ (C := Toy.toy)
              {| Toy.features := ["class"]; Toy.seen := Some [] |} s),
       inl IndexError).
Proof.
  exists constructed_smooth.1, constructed_smooth.2.
  split; [apply constructed_inr; vm_compute; reflexivity|].
  eapply (fit_on_empty_table (C := Toy.toy)).
  - vm_compute. reflexivity.
  - by left.
Defined.

Lemma predict_after_fit_witness :
  exists (h : list (forecaster (C := Toy.toy))) s,
    __init__ (C := Toy.toy) Toy.only_smooth None PyNone Toy.store0 = (h, inr s) /\
    exists p proto,
      registered_for s "smooth" = PyForecaster p /\
      h !! p = Some proto /\
      forall st,
        Toy.toy_fit (params proto) Toy.smooth_series None None = inr st ->
        let w1 := (_fit (C := Toy.toy) Toy.smooth_series None None (h, s)).1 in
        (_fit (C := Toy.toy) Toy.smooth_series None None (h, s)).2 = inr tt /\
        _predict (C := Toy.toy) horizon None w1
          = (w1, Toy.toy_predict (params proto) st horizon None) /\
        _predict (C := Toy.toy) horizon None
            (_predict (C := Toy.toy) horizon None w1).1
          = (w1, Toy.toy_predict (params proto) st horizon None).
Proof.
  exists constructed_smooth.1, constructed_smooth.2.
  split; [apply constructed_inr; vm_compute; reflexivity|].
  eapply (predict_after_fit (C := Toy.toy)).
  - apply constructed_reachable. vm_compute. reflexivity.
  - vm_compute. reflexivity.
  - vm_compute. reflexivity.
  - left. vm_compute. eexists. reflexivity.
Defined.

(** The forecast of the compositor is the forecast of the forecaster
    alone: the last value of the series, at each step of the horizon. *)
Example predict_smooth_series :
  (_predict (C := Toy.toy) horizon None (fitted_smooth.1, fitted_smooth.2)).2
    = inr [5; 5]%Z /\
  bindE (Toy.toy_fit Toy.naive Toy.smooth_series None None)
    (fun st => Toy.toy_predict Toy.naive st horizon None)
    = inr [5; 5]%Z.
Proof. repeat apply conj; vm_compute; reflexivity. Qed.

Lemma predict_after_fit_and_update_witness :
  exists (h : list (forecaster (C := Toy.toy))) s,
    __init__ (C := Toy.toy) Toy.only_smooth None PyNone Toy.store0 = (h, inr s) /\
    exists p proto,
      registered_for s "smooth" = PyForecaster p /\
      h !! p = Some proto /\
      forall st st2,
        Toy.toy_fit (params proto) Toy.smooth_series None None = inr st ->
        Toy.toy_update (params proto) st Toy.intermittent_series None true
          = inr st2 ->
        let w1 := (_fit (C := Toy.toy) Toy.smooth_series None None (h, s)).1 in
        let w2 :=
          (_update (C := Toy.toy) Toy.intermittent_series None true w1).1 in
        (_update (C := Toy.toy) Toy.intermittent_series None true w1).2 = inr tt /\
        category_ w2.2 = Some "smooth" /\
        chosen_forecaster_ w2.2 = Some (length h) /\
        w2.1 = h ++ [@Build_forecaster Toy.toy (params proto) (Some st2)] /\
        _predict (C := Toy.toy) horizon None w2
          = (w2, Toy.toy_predict (params proto) st2 horizon None).
Proof.
  exists constructed_smooth.1, constructed_smooth.2.
  split; [apply constructed_inr; vm_compute; reflexivity|].
  eapply (predict_after_fit_and_update (C := Toy.toy)).
  - apply constructed_reachable. vm_compute. reflexivity.
  - vm_compute. reflexivity.
  - vm_compute. reflexivity.
  - left. vm_compute. eexists. reflexivity.
Defined.

Lemma refit_chooses_a_new_forecaster_witness :
  exists (h : list (forecaster (C := Toy.toy))) s,
    __init__ (C := Toy.toy) Toy.only_smooth None (PyForecaster 1) Toy.store0
      = (h, inr s) /\
    exists p1 proto1 p2 proto2,
      registered_for s "smooth" = PyForecaster p1 /\ h !! p1 = Some proto1 /\
      registered_for s "intermittent" = PyForecaster p2 /\
      h !! p2 = Some proto2 /\
      forall st1 st2,
        Toy.toy_fit (params proto1) Toy.smooth_series None None = inr st1 ->
        Toy.toy_fit (params proto2) Toy.intermittent_series None None = inr st2 ->
        let w1 := (_fit (C := Toy.toy) Toy.smooth_series None None (h, s)).1 in
        let w2 := (_fit (C := Toy.toy) Toy.intermittent_series None None w1).1 in
        (_fit (C := Toy.toy) Toy.intermittent_series None None w1).2 = inr tt /\
        category_ w2.2 = Some "intermittent" /\
        transformer_ w2.2
          = {| Toy.features := ["class"];
               Toy.seen := Some Toy.intermittent_series |} /\
        chosen_forecaster_ w1.2 = Some (length h) /\
        chosen_forecaster_ w2.2 = Some (S (length h)) /\
        w2.1 = h ++ [ @Build_forecaster Toy.toy (params proto1) (Some st1);
                      @Build_forecaster Toy.toy (params proto2) (Some st2) ].
Proof.
  exists constructed_with_fallback.1, constructed_with_fallback.2.
  split; [apply constructed_inr; vm_compute; reflexivity|].
  eapply (refit_chooses_a_new_forecaster (C := Toy.toy)).
  - apply constructed_reachable. vm_compute. reflexivity.
  - vm_compute. reflexivity.
  - vm_compute. reflexivity.
  - left. vm_compute. eexists. reflexivity.
  - vm_compute. reflexivity.
  - vm_compute. reflexivity.
  - right. vm_compute. discriminate.
Defined.

Lemma copies_match_prototypes_witness :
  let h := fitted_smooth.1 in
  let s := fitted_smooth.2 in
  (forall k, is_Some (forecasters_ s !! k) <-> is_Some (forecasters s !! k)) /\
  (forall k v, forecasters s !! k = Some v ->
     exists p o r o',
       v = PyForecaster p /\ h !! p = Some o /\
       forecasters_ s !! k = Some r /\ h !! r = Some o' /\
       params o' = params o) /\
  (fallback_forecaster s = PyNone \/ is_forecaster h (fallback_forecaster s)).
Proof.
  apply (copies_match_prototypes (C := Toy.toy)).
  apply fitted_on_reachable, constructed_reachable. vm_compute. reflexivity.
Defined.

Lemma chosen_forecaster_is_owned_witness :
  owns_chosen (C := Toy.toy) (fitted_smooth.1, fitted_smooth.2).
Proof.
  apply (chosen_forecaster_is_owned (C := Toy.toy)).
  apply fitted_on_reachable, constructed_reachable. vm_compute. reflexivity.
Defined.

(** The references of that compositor: the prototype is object 0, its
    copy object 3 and the chosen forecaster object 4. *)
Example references_after_fit :
  forecasters fitted_smooth.2 !! "smooth" = Some (PyForecaster 0) /\
  forecasters_ fitted_smooth.2 !! "smooth" = Some 3 /\
  chosen_forecaster_ fitted_smooth.2 = Some 4 /\
  length fitted_smooth.1 = 5.
Proof. repeat apply conj; vm_compute; reflexivity. Qed.

Local Abbreviation added_entry := [("intermittent", PyForecaster 1)].
Local Abbreviation replaced_entry := [("smooth", PyForecaster 2)].

Lemma fit_after_setter_uses_construction_copies_witness :
  exists (h : list (forecaster (C := Toy.toy))) s,
    __init__ (C := Toy.toy) Toy.only_smooth None PyNone Toy.store0 = (h, inr s) /\
    let s' := _forecasters_setter added_entry s in
    forecasters_ s' = forecasters_ s /\
    match forecasters s !! "intermittent" with
    | None =>
        _fit (C := Toy.toy) Toy.intermittent_series None None (h, s')
        = ((h, set_category_ "intermittent"
                 (set_transformer_ (C := Toy.toy)
                    {| Toy.features := ["class"];
                       Toy.seen := Some Toy.intermittent_series |} s')),
           inl (KeyError "intermittent"))
    | Some v =>
        exists p proto,
          v = PyForecaster p /\ h !! p = Some proto /\
          _fit (C := Toy.toy) Toy.intermittent_series None None (h, s') =
            let s'' :=
              set_chosen_forecaster_ (length h)
                (set_category_ "intermittent"
                   (set_transformer_ (C := Toy.toy)
                      {| Toy.features := ["class"];
                         Toy.seen := Some Toy.intermittent_series |} s')) in
            match Toy.toy_fit (params proto) Toy.intermittent_series None None with
            | inr st =>
                ((h ++ [@Build_forecaster Toy.toy (params proto) (Some st)], s''),
                 inr tt)
            | inl e => ((h ++ [clone proto], s''), inl e)
            end
    end.
Proof.
  exists constructed_smooth.1, constructed_smooth.2.
  split; [apply constructed_inr; vm_compute; reflexivity|].
  eapply (fit_after_setter_uses_construction_copies (C := Toy.toy)).
  - apply constructed_reachable. vm_compute. reflexivity.
  - vm_compute. reflexivity.
  - vm_compute. reflexivity.
  - vm_compute. eexists. reflexivity.
Defined.

(** Both cases on the compositor with a forecaster for "smooth" alone.
    After the setter has added "intermittent", a fit on an intermittent
    series raises [KeyError].  After the setter has put the trend
    forecaster, object 2, under "smooth", a fit on a smooth series still
    chooses a copy of the naive forecaster registered at construction. *)
Example stale_copies_after_setter :
  let s := constructed_smooth.2 in
  let added := _forecasters_setter added_entry s in
  let replaced := _forecasters_setter replaced_entry s in
  forecasters added !! "intermittent" = Some (PyForecaster 1) /\
  (_fit (C := Toy.toy) Toy.intermittent_series None None
     (constructed_smooth.1, added)).2 = inl (KeyError "intermittent") /\
  forecasters replaced !! "smooth" = Some (PyForecaster 2) /\
  (_fit (C := Toy.toy) Toy.smooth_series None None
     (constructed_smooth.1, replaced)).1.1 !! 4
    = Some (@Build_forecaster Toy.toy Toy.naive (Some Toy.smooth_series)).
Proof. cbv zeta. repeat apply conj; vm_compute; reflexivity. Qed.

Lemma init_copies_each_forecaster_once_witness :
  exists (h : list (forecaster (C := Toy.toy))) s,
    __init__ (C := Toy.toy) Toy.smooth_and_erratic None (PyForecaster 1)
      Toy.store0 = (h, inr s) /\
    exists copies,
      h = Toy.store0 ++ copies /\
      length copies = size Toy.smooth_and_erratic /\
      Forall (fun o => fitted o = None) copies /\
      (forall k r, forecasters_ s !! k = Some r ->
         length Toy.store0 <= r < length h).
Proof.
  exists (Toy.constructed Toy.smooth_and_erratic None (PyForecaster 1)).1,
         (Toy.constructed Toy.smooth_and_erratic None (PyForecaster 1)).2.
  split; [apply constructed_inr; vm_compute; reflexivity|].
  apply (init_copies_each_forecaster_once (C := Toy.toy)
           Toy.smooth_and_erratic None (PyForecaster 1)).
  apply constructed_inr. vm_compute. reflexivity.
Defined.

(** Two forecasters and a fallback: two copies, after the three objects
    of the caller. *)
Example store_after_construction :
  length (Toy.constructed Toy.smooth_and_erratic None (PyForecaster 1)).1 = 5 /\
  size Toy.smooth_and_erratic = 2.
Proof. repeat apply conj; vm_compute; reflexivity. Qed.

Lemma init_with_a_fallback_that_is_no_forecaster_witness :
  assert_forecasters (map_to_list Toy.only_smooth).*2 = inr tt /\
  (__init__ (C := Toy.toy) Toy.only_smooth None (PyOther "a string")
     Toy.store0).2 = inl (AttributeError "get_tags").
Proof.
  eapply (init_with_a_fallback_that_is_no_forecaster (C := Toy.toy)).
  - vm_compute. reflexivity.
  - intros k v Hk. apply elem_of_map_to_list in Hk. vm_compute in Hk.
    apply elem_of_cons in Hk as [[= _ ->]|Hk]; [|by apply elem_of_nil in Hk].
    exists 0, (Toy.unfitted Toy.naive). split; reflexivity.
Defined.

Lemma init_keeps_the_other_tags_witness :
  exists (h : list (forecaster (C := Toy.toy))) s,
    __init__ (C := Toy.toy) Toy.only_smooth None PyNone Toy.store0 = (h, inr s) /\
    tags s !! "scitype:y"
    = (_tags ∪ BaseForecaster_tags (Collaborators := Toy.toy)) !! "scitype:y".
Proof.
  exists constructed_smooth.1, constructed_smooth.2.
  split; [apply constructed_inr; vm_compute; reflexivity|].
  apply (init_keeps_the_other_tags (C := Toy.toy)
           Toy.only_smooth None PyNone Toy.store0 constructed_smooth.1).
  - apply constructed_inr. vm_compute. reflexivity.
  - apply (bool_decide_unpack _). vm_compute. exact I.
  - apply (bool_decide_unpack _). vm_compute. exact I.
Defined.

(** Tags of the class that construction leaves, and two it overwrites. *)
Example tags_after_construction :
  tags constructed_smooth.2 !! "scitype:y" = Some (TStr "both") /\
  tags constructed_smooth.2 !! "y_inner_mtype" = Some (TStr "pd.DataFrame") /\
  tags constructed_smooth.2 !! "python_version" = Some TNone /\
  _tags !! "ignores-exogeneous-X" = Some (TBool false) /\
  tags constructed_smooth.2 !! "ignores-exogeneous-X" = Some (TBool true).
Proof. repeat apply conj; vm_compute; reflexivity. Qed.

Lemma init_returns_witness :
  exists (h' : list (forecaster (C := Toy.toy))) s,
    __init__ (C := Toy.toy) Toy.smooth_and_erratic None (PyForecaster 1)
      Toy.store0 = (h', inr s).
Proof.
  eapply (init_returns (C := Toy.toy)).
  - vm_compute. reflexivity.
  - intros k v Hk. apply elem_of_map_to_list in Hk. vm_compute in Hk.
    apply elem_of_cons in Hk as [[= _ ->]|Hk].
    { eexists _, _. split; reflexivity. }
    apply elem_of_cons in Hk as [[= _ ->]|Hk]; [|by apply elem_of_nil in Hk].
    eexists _, _. split; reflexivity.
  - right. exists 1, (Toy.unfitted Toy.croston). split; reflexivity.
Defined.

Lemma init_of_empty_configuration_witness :
  exists s,
    __init__ (C := Toy.toy) ∅ None PyNone Toy.store0 = (Toy.store0, inr s) /\
    (forall tag, tag ∈ true_if_all_literal.*1 ->
       tags s !! tag = Some (TBool true)) /\
    tags s !! "requires-fh-in-fit" = Some (TBool false) /\
    _predict_interval_attached s = true /\
    _predict_var_attached s = true /\
    _predict_proba_attached s = true /\
    forall y X fh t' df label,
      fit_transform (Collaborators := Toy.toy) (transformer_ s) y X
        = inr (t', df) ->
      iloc_0_0 df = inr label ->
      (_fit (C := Toy.toy) y X fh (Toy.store0, s)).2
        = inl (ValueError (missing_forecaster_message label)).
Proof.
  eapply (init_of_empty_configuration (C := Toy.toy)).
  vm_compute. reflexivity.
Defined.
